(** * B.C.L. Tracker: the data layer of [App.jsx]

    A shallow embedding of the parts of the single-file React application
    that read and write strain entries (the mutation gateway [logStrain] /
    [deleteStrain], the auth-state listener, the form handlers of
    [LogStrainScreen]) and of the derived views ([myAverageRating],
    [filteredStrains]), followed by the properties proved about them.

    Conventions of the embedding.
    - A JavaScript object holding a strain entry is a record of optional
      fields; [None] is a key that the object does not have.  Field values
      have the types the form gives them: text, a number for [rating],
      arrays of tags for [effects] and [terpenes].
    - Strings are sequences of 8-bit characters; [toLowerCase] folds the
      letters A-Z and leaves every other character alone, which is what
      the method does on text in the ASCII range: the properties that
      depend on the case of letters are stated for such text.
    - Identities and document ids stand for single segments of a document
      path (not empty, no slash); the further properties of the gateway
      say so where they follow one call through its requests.
    - The ratings and their sum are integers of [Z]; this is exact as long
      as the magnitudes stay below 2^53.  The quotient computed for the
      average is rounded as IEEE-754 binary64 does.
    - An operation that throws yields [Throw]; effects on the remote store,
      the console and the React state are threaded through a state monad. *)

From Stdlib Require Import ZArith Ascii String List Sorting.Sorted Permutation Lia.
From stdpp Require Import base option list gmap strings pretty.

Local Open Scope Z_scope.

(* ================================================================== *)
(** * JavaScript primitives *)
(* ================================================================== *)

Module Js.

(** Completion of an evaluation: a value, or a thrown exception. *)
Inductive error := TypeError | FirebaseError.

Inductive completion (A : Type) : Type :=
| Return (a : A)
| Throw (e : error).
Arguments Return {A} a.
Arguments Throw {A} e.

#[global] Instance completion_ret : MRet completion := λ A a, Return a.

#[global] Instance completion_bind : MBind completion := λ A B k c,
  match c with
  | Return a => k a
  | Throw e => Throw e
  end.

(** Truthiness of a string ([!s] is its negation): only [""] is falsy. *)
Definition truthy (s : string) : bool :=
  match s with
  | EmptyString => false
  | String _ _ => true
  end.

(** Truthiness of a nullable string ([null], [undefined] are falsy). *)
Definition truthy_opt (o : option string) : bool :=
  match o with
  | Some s => truthy s
  | None => false
  end.

(** [String.prototype.toLowerCase] on text in the ASCII range, where it
    changes the letters A-Z and nothing else.  Letters beyond that range
    are left as they are, so the definition stands for the method only on
    ASCII text. *)
Definition lower_char (c : ascii) : ascii :=
  let n := nat_of_ascii c in
  if ((65 <=? n) && (n <=? 90))%nat then ascii_of_nat (n + 32) else c.

Fixpoint toLowerCase (s : string) : string :=
  match s with
  | EmptyString => EmptyString
  | String c s' => String (lower_char c) (toLowerCase s')
  end.

(** [String.prototype.startsWith]. *)
Definition startsWith (s p : string) : bool := String.prefix p s.

(** [String.prototype.includes]: [sub] occurs somewhere in [s]. *)
Fixpoint includes (s sub : string) : bool :=
  String.prefix sub s ||
  match s with
  | EmptyString => false
  | String _ s' => includes s' sub
  end.

(** [Array.prototype.includes] on an array of strings. *)
Definition array_includes (l : list string) (x : string) : bool :=
  existsb (String.eqb x) l.

(** [s.substring(0, n)] and [s.substring(n)]. *)
Definition substring_to (n : nat) (s : string) : string :=
  String.substring 0 n s.

Definition substring_from (n : nat) (s : string) : string :=
  String.substring n (String.length s - n) s.

(** ** Numbers

    A finite double is [(-1)^dneg * dmant * 2^dexp]. *)
Record double := { dneg : bool; dmant : Z; dexp : Z }.

(** Quotient [n / d] rounded to the nearest integer, ties to even
    ([0 <= n], [0 < d]). *)
Definition div_nearest_even (n d : Z) : Z :=
  let q := n / d in
  let r := n mod d in
  if 2 * r <? d then q
  else if d <? 2 * r then q + 1
  else if Z.even q then q else q + 1.

(** The fraction [(a / b) * 2^k] as a numerator and a denominator. *)
Definition scale2 (k a b : Z) : Z * Z :=
  if 0 <=? k then (a * 2 ^ k, b) else (a, b * 2 ^ (- k)).

(** [floor (log2 (a / b))] for [0 < a], [0 < b]. *)
Definition quot_log2 (a b : Z) : Z :=
  let e0 := Z.log2 a - Z.log2 b in
  let '(n, d) := scale2 (- e0) a b in
  if d <=? n then e0 else e0 - 1.

(** The binary64 quotient of two non-negative integers: 53 significant
    bits, exponent not below that of the subnormals. *)
Definition quot_pos (a b : Z) : Z * Z :=
  if a =? 0 then (0, 0)
  else
    let k := Z.min (52 - quot_log2 a b) 1074 in
    let '(n, d) := scale2 k a b in
    (div_nearest_even n d, - k).

(** [a / b] for an integer [a] and a positive integer [b]. *)
Definition div (a : Z) (b : positive) : double :=
  let '(m, e) := quot_pos (Z.abs a) (Z.pos b) in
  {| dneg := a <? 0; dmant := m; dexp := e |}.

(** The integer [n] for which [n / 10 - x] is as close to zero as
    possible, the larger one if there are two ([0 <= x = m * 2^e]). *)
Definition tenths (m e : Z) : Z :=
  if 0 <=? e then 10 * m * 2 ^ e
  else (20 * m + 2 ^ (- e)) / 2 ^ (- e + 1).

(** The digits of [n] with a point before the last one. *)
Definition fixed1_digits (n : Z) : string :=
  pretty (n / 10) +:+ "." +:+ pretty (n mod 10).

(** [Number.prototype.toFixed(1)] (for [x < 10^21]; larger numbers print
    in exponent notation and cannot arise from an in-range quotient). *)
Definition toFixed1 (x : double) : string :=
  let body := fixed1_digits (tenths (dmant x) (dexp x)) in
  if dneg x && (0 <? dmant x) then "-" +:+ body else body.

(** A value that is either a number or a string. *)
Inductive value :=
| Num (z : Z)
| Str (s : string).

(** ** Arrays *)

(** [Array.prototype.filter] with a callback that may throw: the elements
    are visited from the left and the first exception ends the call. *)
Fixpoint filter {A} (p : A → completion bool) (l : list A) : completion (list A) :=
  match l with
  | [] => Return []
  | x :: l' =>
      b ← p x;
      r ← filter p l';
      Return (if b : bool then x :: r else r)
  end.

(** [Array.prototype.sort] with a comparator.  The comparator's result is a
    number or [NaN] ([None]), and [NaN] counts as [0].  The sort is stable,
    so its result is fixed by the comparator whenever the comparator is a
    consistent order; it is written here as a stable insertion sort. *)
Definition sortCompare {A} (cmp : A → A → option Z) (x y : A) : Z :=
  default 0 (cmp x y).

Fixpoint sort_insert {A} (cmp : A → A → option Z) (x : A) (l : list A) : list A :=
  match l with
  | [] => [x]
  | y :: l' =>
      if 0 <? sortCompare cmp x y then y :: sort_insert cmp x l' else x :: l
  end.

Definition sort {A} (cmp : A → A → option Z) (l : list A) : list A :=
  foldr (sort_insert cmp) [] l.

End Js.

Import Js.

(* ================================================================== *)
(** * Data model *)
(* ================================================================== *)

(** A strain entry as a JavaScript object: the nine fields of the form,
    the stamps added by [logStrain], the back-reference of a community
    mirror, and the [id] that a snapshot listener puts in front. *)
Module Strain.

Record t := mk {
  id : option string;
  strainName : option string;
  productType : option string;
  purchasedLocation : option string;
  cost : option string;
  effects : option (list string);
  rating : option Z;
  brand : option string;
  type : option string;
  terpenes : option (list string);
  userId : option string;
  createdAt : option string;
  updatedAt : option string;
  originalDocId : option string;
  contributedAt : option string;
}.

(** [{ ...o, field: v }] for each field. *)
Definition set_id v o := mk v (strainName o) (productType o) (purchasedLocation o) (cost o) (effects o) (rating o) (brand o) (type o) (terpenes o) (userId o) (createdAt o) (updatedAt o) (originalDocId o) (contributedAt o).
Definition set_strainName v o := mk (id o) v (productType o) (purchasedLocation o) (cost o) (effects o) (rating o) (brand o) (type o) (terpenes o) (userId o) (createdAt o) (updatedAt o) (originalDocId o) (contributedAt o).
Definition set_productType v o := mk (id o) (strainName o) v (purchasedLocation o) (cost o) (effects o) (rating o) (brand o) (type o) (terpenes o) (userId o) (createdAt o) (updatedAt o) (originalDocId o) (contributedAt o).
Definition set_purchasedLocation v o := mk (id o) (strainName o) (productType o) v (cost o) (effects o) (rating o) (brand o) (type o) (terpenes o) (userId o) (createdAt o) (updatedAt o) (originalDocId o) (contributedAt o).
Definition set_cost v o := mk (id o) (strainName o) (productType o) (purchasedLocation o) v (effects o) (rating o) (brand o) (type o) (terpenes o) (userId o) (createdAt o) (updatedAt o) (originalDocId o) (contributedAt o).
Definition set_effects v o := mk (id o) (strainName o) (productType o) (purchasedLocation o) (cost o) v (rating o) (brand o) (type o) (terpenes o) (userId o) (createdAt o) (updatedAt o) (originalDocId o) (contributedAt o).
Definition set_rating v o := mk (id o) (strainName o) (productType o) (purchasedLocation o) (cost o) (effects o) v (brand o) (type o) (terpenes o) (userId o) (createdAt o) (updatedAt o) (originalDocId o) (contributedAt o).
Definition set_brand v o := mk (id o) (strainName o) (productType o) (purchasedLocation o) (cost o) (effects o) (rating o) v (type o) (terpenes o) (userId o) (createdAt o) (updatedAt o) (originalDocId o) (contributedAt o).
Definition set_type v o := mk (id o) (strainName o) (productType o) (purchasedLocation o) (cost o) (effects o) (rating o) (brand o) v (terpenes o) (userId o) (createdAt o) (updatedAt o) (originalDocId o) (contributedAt o).
Definition set_terpenes v o := mk (id o) (strainName o) (productType o) (purchasedLocation o) (cost o) (effects o) (rating o) (brand o) (type o) v (userId o) (createdAt o) (updatedAt o) (originalDocId o) (contributedAt o).
Definition set_userId v o := mk (id o) (strainName o) (productType o) (purchasedLocation o) (cost o) (effects o) (rating o) (brand o) (type o) (terpenes o) v (createdAt o) (updatedAt o) (originalDocId o) (contributedAt o).
Definition set_createdAt v o := mk (id o) (strainName o) (productType o) (purchasedLocation o) (cost o) (effects o) (rating o) (brand o) (type o) (terpenes o) (userId o) v (updatedAt o) (originalDocId o) (contributedAt o).
Definition set_updatedAt v o := mk (id o) (strainName o) (productType o) (purchasedLocation o) (cost o) (effects o) (rating o) (brand o) (type o) (terpenes o) (userId o) (createdAt o) v (originalDocId o) (contributedAt o).
Definition set_originalDocId v o := mk (id o) (strainName o) (productType o) (purchasedLocation o) (cost o) (effects o) (rating o) (brand o) (type o) (terpenes o) (userId o) (createdAt o) (updatedAt o) v (contributedAt o).
Definition set_contributedAt v o := mk (id o) (strainName o) (productType o) (purchasedLocation o) (cost o) (effects o) (rating o) (brand o) (type o) (terpenes o) (userId o) (createdAt o) (updatedAt o) (originalDocId o) v.

(** The object without any key. *)
Definition empty : t :=
  mk None None None None None None None None None None None None None None None.

(** [{ ...old, ...new }]: every key of [new] wins, the other keys of [old]
    stay.  This is also what a merging [setDoc] leaves in a document. *)
Definition assign (old new : t) : t :=
  let pick {A} (f : t → option A) : option A :=
    match f new with Some v => Some v | None => f old end in
  mk (pick id) (pick strainName) (pick productType) (pick purchasedLocation)
     (pick cost) (pick effects) (pick rating) (pick brand) (pick type)
     (pick terpenes) (pick userId) (pick createdAt) (pick updatedAt)
     (pick originalDocId) (pick contributedAt).

(** The values of the nine fields that the form edits. *)
Definition entered (o : t) :=
  (strainName o, productType o, purchasedLocation o, cost o, effects o,
   rating o, brand o, type o, terpenes o).

End Strain.

(** The filter panel of the history screen.  [rating] starts as the number
    [0]; once the select has been used it holds the chosen option's value,
    a string: [RStr n] is the string [String(n)]. *)
Module Filters.

Inductive ratingFilter :=
| RNum (n : Z)
| RStr (n : Z).

Record t := mk {
  rating : ratingFilter;
  potency : string;
  flavor : string;
  effects : string;
  brand : string;
  type : string;
  terpene : string;
  location : string;
}.

(** The state the screen starts with. *)
Definition initial : t := mk (RNum 0) "" "" "" "" "" "" "".

(** The number a rating filter stands for. *)
Definition rating_value (r : ratingFilter) : Z :=
  match r with RNum n => n | RStr n => n end.

End Filters.

(* ================================================================== *)
(** * View derivation *)
(* ================================================================== *)

(** ** Dashboard: average rating *)

(** [(s.rating || 0)]: a missing rating counts as [0]. *)
Definition rating_or_0 (s : Strain.t) : Z :=
  match Strain.rating s with
  | Some z => z
  | None => 0
  end.

(** [strains.reduce((sum, s) => sum + (s.rating || 0), 0)]. *)
Definition total (strains : list Strain.t) : Z :=
  fold_left (λ sum s, sum + rating_or_0 s) strains 0.

(** The body shared by [myAverageRating] and [communityAverageRating]:
    the number [0] for an empty list, otherwise the string printed by
    [toFixed(1)]. *)
Definition averageRating (strains : list Strain.t) : value :=
  match strains with
  | [] => Num 0
  | _ :: _ => Str (toFixed1 (div (total strains) (Pos.of_nat (length strains))))
  end.

(** ** History screen: filtering and sorting *)

(** [rating === 0]: strict, so a string never equals the number. *)
Definition rating_is_0 (r : Filters.ratingFilter) : bool :=
  match r with
  | Filters.RNum n => n =? 0
  | Filters.RStr _ => false
  end.

(** [strain.rating >= rating]: a missing rating is [undefined], which
    compares as [NaN]; a string filter is converted to its number. *)
Definition rating_ge (r : option Z) (f : Filters.ratingFilter) : bool :=
  match r with
  | Some z => Filters.rating_value f <=? z
  | None => false
  end.

(** [strain.effects.includes(tag)] and [strain.terpenes.includes(tag)]:
    reading a property of [undefined] throws. *)
Definition tags_include (tags : option (list string)) (tag : string) : completion bool :=
  match tags with
  | Some l => Return (array_includes l tag)
  | None => Throw TypeError
  end.

(** [field.toLowerCase().includes(needle.toLowerCase())]. *)
Definition text_includes (field : option string) (needle : string) : completion bool :=
  match field with
  | Some s => Return (includes (toLowerCase s) (toLowerCase needle))
  | None => Throw TypeError
  end.

(** [strain.type === type]. *)
Definition type_is (field : option string) (ty : string) : bool :=
  match field with
  | Some s => String.eqb s ty
  | None => false
  end.

(** The callback given to [filter].  The six constants are evaluated one
    after the other, each guarded by its own [!filter ||]. *)
Definition matches (filters : Filters.t) (searchFilter : string)
    (strain : Strain.t) : completion bool :=
  let rating := Filters.rating filters in
  let effects := Filters.effects filters in
  let brand := Filters.brand filters in
  let type := Filters.type filters in
  let terpene := Filters.terpene filters in
  let matchesRating := rating_is_0 rating || rating_ge (Strain.rating strain) rating in
  matchesEffects ←
    (if negb (truthy effects) then Return true
     else tags_include (Strain.effects strain) effects);
  matchesBrand ←
    (if negb (truthy brand) then Return true
     else text_includes (Strain.brand strain) brand);
  let matchesType := negb (truthy type) || type_is (Strain.type strain) type in
  matchesTerpene ←
    (if negb (truthy terpene) then Return true
     else tags_include (Strain.terpenes strain) terpene);
  matchesSearch ←
    (if negb (truthy searchFilter) then Return true
     else text_includes (Strain.strainName strain) searchFilter);
  Return (matchesRating && matchesEffects && matchesBrand && matchesType
          && matchesTerpene && matchesSearch).

(** [(a, b) => b.rating - a.rating]. *)
Definition by_rating_desc (a b : Strain.t) : option Z :=
  match Strain.rating b, Strain.rating a with
  | Some rb, Some ra => Some (rb - ra)
  | _, _ => None
  end.

(** [dataToDisplay.filter(...).sort(...)]. *)
Definition filteredStrains (dataToDisplay : list Strain.t) (filters : Filters.t)
    (searchFilter : string) : completion (list Strain.t) :=
  kept ← Js.filter (matches filters searchFilter) dataToDisplay;
  Return (sort by_rating_desc kept).

(* ================================================================== *)
(** * Application state and the remote store *)
(* ================================================================== *)

(** Opaque handles returned by [getFirestore] and [getAuth]. *)
Inductive firestore := Firestore.
Inductive auth_handle := Auth.

(** The identity passed to the auth-state listener. *)
Record user := { uid : string }.

(** The [useState] cells of [App]. *)
Module App.

Record t := mk {
  db : option firestore;
  auth : option auth_handle;
  userId : option string;
  userName : option string;
  isAuthReady : bool;
  isAdmin : bool;
  currentPage : string;
  userStrains : list Strain.t;
  communityStrains : list Strain.t;
  loading : bool;
  searchFilter : string;
}.

Definition initial : t :=
  mk None None None None false false "dashboard" [] [] true "".

Definition setDb v a := mk v (auth a) (userId a) (userName a) (isAuthReady a) (isAdmin a) (currentPage a) (userStrains a) (communityStrains a) (loading a) (searchFilter a).
Definition setAuth v a := mk (db a) v (userId a) (userName a) (isAuthReady a) (isAdmin a) (currentPage a) (userStrains a) (communityStrains a) (loading a) (searchFilter a).
Definition setUserId v a := mk (db a) (auth a) v (userName a) (isAuthReady a) (isAdmin a) (currentPage a) (userStrains a) (communityStrains a) (loading a) (searchFilter a).
Definition setUserName v a := mk (db a) (auth a) (userId a) v (isAuthReady a) (isAdmin a) (currentPage a) (userStrains a) (communityStrains a) (loading a) (searchFilter a).
Definition setIsAuthReady v a := mk (db a) (auth a) (userId a) (userName a) v (isAdmin a) (currentPage a) (userStrains a) (communityStrains a) (loading a) (searchFilter a).
Definition setIsAdmin v a := mk (db a) (auth a) (userId a) (userName a) (isAuthReady a) v (currentPage a) (userStrains a) (communityStrains a) (loading a) (searchFilter a).
Definition setCurrentPage v a := mk (db a) (auth a) (userId a) (userName a) (isAuthReady a) (isAdmin a) v (userStrains a) (communityStrains a) (loading a) (searchFilter a).
Definition setUserStrains v a := mk (db a) (auth a) (userId a) (userName a) (isAuthReady a) (isAdmin a) (currentPage a) v (communityStrains a) (loading a) (searchFilter a).
Definition setCommunityStrains v a := mk (db a) (auth a) (userId a) (userName a) (isAuthReady a) (isAdmin a) (currentPage a) (userStrains a) v (loading a) (searchFilter a).
Definition setLoading v a := mk (db a) (auth a) (userId a) (userName a) (isAuthReady a) (isAdmin a) (currentPage a) (userStrains a) (communityStrains a) v (searchFilter a).
Definition setSearchFilter v a := mk (db a) (auth a) (userId a) (userName a) (isAuthReady a) (isAdmin a) (currentPage a) (userStrains a) (communityStrains a) (loading a) v.

End App.

(** The two collections of the document store:
    [artifacts/{appId}/users/{userId}/strains/{docId}], keyed by the owner
    and the document id, and
    [artifacts/{appId}/public/data/community_strains/{docId}]. *)
Record backend := {
  strains : gmap (string * string) Strain.t;
  community_strains : gmap string Strain.t;
}.

Inductive docRef :=
| UserStrain (userId docId : string)
| CommunityStrain (docId : string).

(** [docRef.id]. *)
Definition ref_id (r : docRef) : string :=
  match r with
  | UserStrain _ d => d
  | CommunityStrain d => d
  end.

(** A call that reaches the store. *)
Inductive request :=
| SetDoc (ref : docRef) (data : Strain.t) (merge : bool)
| DeleteDoc (ref : docRef).

Inductive console_entry :=
| Log (msg : string)
| Error (msg : string).

(** Everything a handler of [App] can read or change.  [requests] and
    [console] grow at the head; [dates] and [ids] count the readings of the
    clock and the ids generated so far. *)
Record sys := {
  ui : App.t;
  store : backend;
  requests : list request;
  console : list console_entry;
  dates : nat;
  ids : nat;
}.

(** What the handlers cannot control: the successive results of
    [new Date().toISOString()], the ids that [doc(collection(...))]
    generates, and whether the store accepts the n-th request. *)
Record env := {
  now : nat → string;
  autoId : nat → string;
  accepts : nat → bool;
}.

(** ** The monad of handlers *)

Definition M (A : Type) : Type := sys → completion A * sys.

#[global] Instance M_ret : MRet M := λ A a s, (Return a, s).

#[global] Instance M_bind : MBind M := λ A B k c s,
  match c s with
  | (Return a, s') => k a s'
  | (Throw e, s') => (Throw e, s')
  end.

(** [try { body } catch (e) { handler }]: what [body] did before it threw
    is not undone. *)
Definition try_catch {A} (body : M A) (handler : error → M A) : M A := λ s,
  match body s with
  | (Return a, s') => (Return a, s')
  | (Throw e, s') => handler e s'
  end.

Definition get_app : M App.t := λ s, (Return (ui s), s).

Definition set_app (f : App.t → App.t) : M unit := λ s,
  (Return (), {| ui := f (ui s); store := store s; requests := requests s;
                 console := console s; dates := dates s; ids := ids s |}).

Definition console_log (msg : string) : M unit := λ s,
  (Return (), {| ui := ui s; store := store s; requests := requests s;
                 console := Log msg :: console s; dates := dates s; ids := ids s |}).

Definition console_error (msg : string) : M unit := λ s,
  (Return (), {| ui := ui s; store := store s; requests := requests s;
                 console := Error msg :: console s; dates := dates s; ids := ids s |}).

(** What an accepted request does to the collections.  A merging [setDoc]
    keeps the fields it is not given and creates the document if there is
    none; a plain [setDoc] replaces it; [deleteDoc] of a missing document
    changes nothing. *)
Definition apply_request (r : request) (b : backend) : backend :=
  match r with
  | SetDoc (UserStrain u d) data merge =>
      let old := default Strain.empty (strains b !! (u, d)) in
      {| strains := <[(u, d) := if merge then Strain.assign old data else data]> (strains b);
         community_strains := community_strains b |}
  | SetDoc (CommunityStrain d) data merge =>
      let old := default Strain.empty (community_strains b !! d) in
      {| strains := strains b;
         community_strains :=
           <[d := if merge then Strain.assign old data else data]> (community_strains b) |}
  | DeleteDoc (UserStrain u d) =>
      {| strains := delete (u, d) (strains b);
         community_strains := community_strains b |}
  | DeleteDoc (CommunityStrain d) =>
      {| strains := strains b;
         community_strains := delete d (community_strains b) |}
  end.

Section Gateway.

Variable E : env.

(** [new Date().toISOString()]. *)
Definition new_Date_toISOString : M string := λ s,
  (Return (now E (dates s)),
   {| ui := ui s; store := store s; requests := requests s;
      console := console s; dates := S (dates s); ids := ids s |}).

(** The id of [doc(collection(...))]: generated on the client. *)
Definition newId : M string := λ s,
  (Return (autoId E (ids s)),
   {| ui := ui s; store := store s; requests := requests s;
      console := console s; dates := dates s; ids := S (ids s) |}).

(** [doc(db, 'artifacts', appId, 'users', userId, 'strains', docId)]: an
    empty last segment does not make a document path, and [doc] throws.
    Identities and document ids are single path segments here; one that
    holds a slash addresses another path (or none) and is not covered. *)
Definition doc_strain (userId docId : string) : M docRef := λ s,
  if truthy docId then (Return (UserStrain userId docId), s)
  else (Throw FirebaseError, s).

(** A request is sent; the awaited promise resolves if the store accepts
    it and rejects otherwise. *)
Definition send (r : request) : M unit := λ s,
  let s' b := {| ui := ui s; store := b; requests := r :: requests s;
                 console := console s; dates := dates s; ids := ids s |} in
  if accepts E (length (requests s)) then (Return (), s' (apply_request r (store s)))
  else (Throw FirebaseError, s' (store s)).

Definition setDoc (ref : docRef) (data : Strain.t) (merge : bool) : M unit :=
  send (SetDoc ref data merge).

Definition deleteDoc (ref : docRef) : M unit :=
  send (DeleteDoc ref).

(** ** Mutation gateway *)

(** [logStrain(strainData, docId = null)]. *)
Definition logStrain (strainData : Strain.t) (docId : option string) : M unit :=
  a ← get_app;
  match App.db a, App.userId a with
  | Some _, Some userId =>
      if negb (truthy userId) then console_error "DB or User ID not ready."
      else
        docRef ←
          match docId with
          | Some d =>
              if truthy d then doc_strain userId d
              else (i ← newId; mret (UserStrain userId i))
          | None => i ← newId; mret (UserStrain userId i)
          end;
        try_catch
          (createdAt ← new_Date_toISOString;
           updatedAt ← new_Date_toISOString;
           setDoc docRef
             (Strain.set_updatedAt (Some updatedAt)
                (Strain.set_createdAt (Some createdAt)
                   (Strain.set_userId (Some userId) strainData)))
             true;;
           (if negb (truthy_opt docId) then
              i ← newId;
              let communityDocRef := CommunityStrain i in
              contributedAt ← new_Date_toISOString;
              setDoc communityDocRef
                (Strain.set_contributedAt (Some contributedAt)
                   (Strain.set_userId (Some userId)
                      (Strain.set_originalDocId (Some (ref_id docRef)) strainData)))
                false
            else mret ());;
           console_log "Strain logged/updated successfully.";;
           set_app (App.setCurrentPage "history"))
          (λ e, console_error "Error adding document: ")
  | _, _ => console_error "DB or User ID not ready."
  end.

(** [deleteStrain(docId)]. *)
Definition deleteStrain (docId : string) : M unit :=
  a ← get_app;
  match App.db a, App.userId a with
  | Some _, Some userId =>
      if negb (truthy userId) then mret ()
      else
        try_catch
          (ref ← doc_strain userId docId;
           deleteDoc ref;;
           console_log "Strain deleted successfully.")
          (λ e, console_error "Error deleting document: ")
  | _, _ => mret ()
  end.

End Gateway.

(** ** Session: the auth-state listener *)

(** [formatUserId]. *)
Definition formatUserId (id : option string) : string :=
  match id with
  | Some i =>
      if truthy i then
        substring_to 4 i +:+ "..." +:+ substring_from (String.length i - 4) i
      else "Guest"
  | None => "Guest"
  end.

(** The callback registered with [onAuthStateChanged]; [None] is a call
    with [null]. *)
Definition authStateChanged (u : option user) : M unit :=
  match u with
  | Some u =>
      set_app (App.setUserId (Some (uid u)));;
      (if startsWith (uid u) "admin_" then
         set_app (App.setIsAdmin true);;
         console_log "Admin Role Detected."
       else mret ());;
      set_app (App.setUserName
                 (Some ("Tyren R. (" +:+ formatUserId (Some (uid u)) +:+ ")")))
  | None =>
      set_app (App.setUserId None);;
      set_app (App.setUserName None)
  end;;
  set_app (App.setIsAuthReady true);;
  set_app (App.setLoading false).

(** The listener called once for each identity of a list, oldest first. *)
Fixpoint authStateChanges (us : list (option user)) : M unit :=
  match us with
  | [] => mret ()
  | u :: us' => authStateChanged u;; authStateChanges us'
  end.

(** The state [App] is in after its first effect has stored the handles. *)
Definition booted : sys :=
  {| ui := App.setDb (Some Firestore) (App.setAuth (Some Auth) App.initial);
     store := {| strains := ∅; community_strains := ∅ |};
     requests := []; console := []; dates := 0; ids := 0 |}.

(** ** Collection listeners *)

(** [doc => ({ id: doc.id, ...doc.data() })]. *)
Definition of_doc (doc : string * Strain.t) : Strain.t :=
  Strain.assign (Strain.set_id (Some doc.1) Strain.empty) doc.2.

(** The callbacks given to [onSnapshot]: each delivery replaces the whole
    list.  [docs] is [snapshot.docs], in the order the store chose. *)
Definition privateSnapshot (docs : list (string * Strain.t)) : M unit :=
  let strains := of_doc <$> docs in
  set_app (App.setUserStrains strains);;
  console_log ("Loaded " +:+ pretty (length strains) +:+ " private strains.").

Definition publicSnapshot (docs : list (string * Strain.t)) : M unit :=
  let strains := of_doc <$> docs in
  set_app (App.setCommunityStrains strains);;
  console_log ("Loaded " +:+ pretty (length strains) +:+ " community strains.").

(** The documents of one identity's private collection, and those of the
    community collection, as a snapshot would list them. *)
Definition private_docs (userId : string) (b : backend) : list (string * Strain.t) :=
  omap (λ '((u, d), data), if decide (u = userId) then Some (d, data) else None)
       (map_to_list (strains b)).

Definition community_docs (b : backend) : list (string * Strain.t) :=
  map_to_list (community_strains b).

(** ** The screens' derived values *)

Definition myAverageRating (a : App.t) : value :=
  averageRating (App.userStrains a).

Definition communityAverageRating (a : App.t) : value :=
  averageRating (App.communityStrains a).

(** [dataScope === 'mine' ? userStrains : communityStrains]. *)
Inductive dataScope := mine | community.

Definition dataToDisplay (scope : dataScope) (a : App.t) : list Strain.t :=
  match scope with
  | mine => App.userStrains a
  | community => App.communityStrains a
  end.

(** ** The form of [LogStrainScreen] *)

Module Form.

(** [useState(initialStrain || { ... })]. *)
Definition blank : Strain.t :=
  Strain.set_terpenes (Some [])
    (Strain.set_type (Some "Hybrid")
       (Strain.set_brand (Some "")
          (Strain.set_rating (Some 0)
             (Strain.set_effects (Some [])
                (Strain.set_cost (Some "")
                   (Strain.set_purchasedLocation (Some "")
                      (Strain.set_productType (Some "Flower")
                         (Strain.set_strainName (Some "") Strain.empty)))))))).

Definition initial (initialStrain : option Strain.t) : Strain.t :=
  default blank initialStrain.

(** The inputs wired to [handleChange], by their [name] attribute. *)
Inductive input :=
| strainName | brand | productType | purchasedLocation | cost | type.

(** [handleChange]: [{ ...prev, [name]: value }]. *)
Definition handleChange (name : input) (value : string) (prev : Strain.t) : Strain.t :=
  match name with
  | strainName => Strain.set_strainName (Some value) prev
  | brand => Strain.set_brand (Some value) prev
  | productType => Strain.set_productType (Some value) prev
  | purchasedLocation => Strain.set_purchasedLocation (Some value) prev
  | cost => Strain.set_cost (Some value) prev
  | type => Strain.set_type (Some value) prev
  end.

(** [handleRating]. *)
Definition handleRating (r : Z) (prev : Strain.t) : Strain.t :=
  Strain.set_rating (Some r) prev.

(** [handleEffectsToggle]. *)
Definition handleEffectsToggle (effect : string) (prev : Strain.t) : completion Strain.t :=
  match Strain.effects prev with
  | Some l =>
      Return (Strain.set_effects
                (Some (if array_includes l effect
                       then List.filter (λ e, negb (String.eqb e effect)) l
                       else l ++ [effect]))
                prev)
  | None => Throw TypeError
  end.

(** [handleTerpenesSelect], given the values of the selected options: the
    next form data and the message of the alert, if one is raised. *)
Definition handleTerpenesSelect (selectedOptions : list string) (prev : Strain.t)
    : Strain.t * option string :=
  if (length selectedOptions <=? 3)%nat
  then (Strain.set_terpenes (Some selectedOptions) prev, None)
  else (prev, Some "You can select a maximum of 3 terpenes.").

(** What the user can do to the form before submitting it. *)
Inductive event :=
| Change (name : input) (value : string)
| Rate (r : Z)
| ToggleEffect (effect : string)
| SelectTerpenes (selectedOptions : list string).

Definition step (ev : event) (formData : Strain.t) : completion Strain.t :=
  match ev with
  | Change name value => Return (handleChange name value formData)
  | Rate r => Return (handleRating r formData)
  | ToggleEffect effect => handleEffectsToggle effect formData
  | SelectTerpenes sel => Return (fst (handleTerpenesSelect sel formData))
  end.

Fixpoint run (evs : list event) (formData : Strain.t) : completion Strain.t :=
  match evs with
  | [] => Return formData
  | ev :: evs' => formData' ← step ev formData; run evs' formData'
  end.

(** [handleSubmit]: [logStrain(formData, initialStrain?.id)]. *)
Definition handleSubmit (E : env) (initialStrain : option Strain.t)
    (formData : Strain.t) : M unit :=
  logStrain E formData (initialStrain ≫= Strain.id).

End Form.

(* ================================================================== *)
(** * Further parts of [App.jsx] *)
(* ================================================================== *)

(** ** The hearts of a rating *)

(** [StarRating]: [Array(5).fill(0).map((_, i) => ... i < rating ...)],
    [true] for a filled heart.  A missing rating compares as [NaN]. *)
Definition StarRating (rating : option Z) : list bool :=
  (λ i, match rating with Some r => i <? r | None => false end) <$> [0; 1; 2; 3; 4].

(** ** Start-up *)

Inductive signIn :=
| SignInWithCustomToken (token : string)
| SignInAnonymously.

(** [authenticate]: the sign-in calls made, in order, what is written to
    the console, and how the function ends.  [ok n] tells whether the
    n-th call succeeds.  The call in the [catch] block is not guarded. *)
Definition authenticate (initialAuthToken : option string) (ok : nat → bool)
    : list signIn * list console_entry * completion unit :=
  let '(first, msg) :=
    match initialAuthToken with
    | Some token =>
        if truthy token
        then (SignInWithCustomToken token, "Signed in with custom token.")
        else (SignInAnonymously, "Signed in anonymously.")
    | None => (SignInAnonymously, "Signed in anonymously.")
    end in
  if ok 0%nat then ([first], [Log msg], Return ())
  else ([first; SignInAnonymously], [Error "Authentication failed:"],
        if ok 1%nat then Return () else Throw FirebaseError).

(** The first effect of [App], up to the point where the handles are
    stored ([authenticate] and the listener run after it).
    [firebaseConfigKeys] is [Object.keys(firebaseConfig).length]; [sdk] is
    what [initializeApp], [getAuth] and [getFirestore] come to. *)
Definition initEffect (firebaseConfigKeys : nat)
    (sdk : completion (auth_handle * firestore)) : M unit :=
  try_catch
    (if (firebaseConfigKeys =? 0)%nat then
       console_error
         "Firebase config is empty. Ensure __firebase_config is correctly provided."
     else
       handles ← (λ s, (sdk, s));
       set_app (App.setAuth (Some handles.1));;
       set_app (App.setDb (Some handles.2)))
    (λ e,
       console_error "Firebase initialization failed:";;
       set_app (App.setIsAuthReady false);;
       set_app (App.setLoading false)).

(** ** What [App] renders *)

Inductive screen :=
| Loader
| LoginRequired
| LogStrainScreen
| HistoryScreen
| DashboardScreen.

(** The main render logic. *)
Definition render (a : App.t) : screen :=
  if App.loading a || negb (App.isAuthReady a) then Loader
  else if negb (truthy_opt (App.userId a)) then LoginRequired
  else if String.eqb (App.currentPage a) "log" then LogStrainScreen
  else if String.eqb (App.currentPage a) "history" then HistoryScreen
  else DashboardScreen.

(** ** Dashboard: the community cards *)

(** [communityStrains.filter(s => s.strainName.toLowerCase()
      .includes(searchFilter.toLowerCase())).slice(0, 4)]. *)
Definition filteredCommunityStrains (communityStrains : list Strain.t)
    (searchFilter : string) : completion (list Strain.t) :=
  kept ← Js.filter (λ s, text_includes (Strain.strainName s) searchFilter)
                   communityStrains;
  Return (take 4 kept).

(** ** Copying an entry *)

(** A template literal prints a missing value as [undefined]. *)
Definition show_text (o : option string) : string := default "undefined" o.

Definition show_number (o : option Z) : string :=
  match o with
  | Some z => pretty z
  | None => "undefined"
  end.

(** [value || 'N/A']. *)
Definition or_NA (o : option string) : string :=
  match o with
  | Some s => if truthy s then s else "N/A"
  | None => "N/A"
  end.

(** [Array.prototype.join]. *)
Definition join (sep : string) (l : list string) : string :=
  match l with
  | [] => ""
  | x :: l' => fold_left (λ acc y, acc +:+ sep +:+ y) l' x
  end.

(** [tags.join(', ')], which throws on [undefined]. *)
Definition joined (tags : option (list string)) : completion string :=
  match tags with
  | Some l => Return (join ", " l)
  | None => Throw TypeError
  end.

Definition newline : string := String (ascii_of_nat 10) "".

(** The text that [copyStrainDetails] builds. *)
Definition details (strain : Strain.t) : completion string :=
  effects ← joined (Strain.effects strain);
  terpenes ← joined (Strain.terpenes strain);
  Return
    ("Strain: " +:+ show_text (Strain.strainName strain)
       +:+ " (" +:+ show_text (Strain.productType strain) +:+ ")" +:+ newline
     +:+ "Brand: " +:+ or_NA (Strain.brand strain) +:+ newline
     +:+ "Location: " +:+ or_NA (Strain.purchasedLocation strain) +:+ newline
     +:+ "Rating: " +:+ show_number (Strain.rating strain) +:+ "/5" +:+ newline
     +:+ "Effects: " +:+ effects +:+ newline
     +:+ "Top Terpenes: " +:+ terpenes +:+ newline).

(** [copyStrainDetails]: the text given to the clipboard and the alert
    raised, if the clipboard took the text ([clipboard = true]); its
    refusal goes to the console. *)
Definition copyStrainDetails (clipboard : bool) (strain : Strain.t)
    : M (string * option string) :=
  text ← (λ s, (details strain, s));
  if clipboard then mret (text, Some "Strain details copied to clipboard!")
  else console_error "Could not copy text: ";; mret (text, None).

(** ** The filter panel *)

Module Panel.

(** A control of the panel that has been used: its [name] and its value.
    The rating select gives the text of the chosen number, [String(n)].
    (The sixth control, [productType], stores a key that the filter never
    reads and that [Filters.t] does not hold.) *)
Inductive change :=
| rating (n : Z)
| brand (value : string)
| type (value : string)
| effects (value : string)
| terpene (value : string).

(** [handleFilterChange]: [{ ...prev, [name]: value }]. *)
Definition handleFilterChange (c : change) (prev : Filters.t) : Filters.t :=
  let 'Filters.mk r po fl ef br ty te lo := prev in
  match c with
  | rating n => Filters.mk (Filters.RStr n) po fl ef br ty te lo
  | brand v => Filters.mk r po fl ef v ty te lo
  | type v => Filters.mk r po fl ef br v te lo
  | effects v => Filters.mk r po fl v br ty te lo
  | terpene v => Filters.mk r po fl ef br ty v lo
  end.

End Panel.

(* ================================================================== *)
(** * Vocabulary of the properties *)
(* ================================================================== *)

(** Text in the ASCII range. *)
Fixpoint is_ascii (s : string) : bool :=
  match s with
  | EmptyString => true
  | String c s' => (nat_of_ascii c <? 128)%nat && is_ascii s'
  end.

(** Two characters that are equal, or the capital and the small form of
    one letter ([A] is character 65, [a] is character 97). *)
Definition same_letter (a b : ascii) : Prop :=
  a = b ∨
  ∃ n, (65 ≤ n ≤ 90)%nat ∧
       ((a = ascii_of_nat n ∧ b = ascii_of_nat (n + 32)) ∨
        (b = ascii_of_nat n ∧ a = ascii_of_nat (n + 32))).

(** Two texts that are equal when the case of letters is ignored. *)
Inductive same_text : string → string → Prop :=
| same_text_empty : same_text "" ""
| same_text_cons (a b : ascii) (s t : string) :
    same_letter a b → same_text s t → same_text (String a s) (String b t).

(** [needle] occurs in [field] when the case of letters is ignored: some
    part of [field] is [needle] up to the case of its letters. *)
Definition contains_ci (field needle : string) : Prop :=
  ∃ pre mid post, field = pre +:+ mid +:+ post ∧ same_text mid needle.

(** The six conditions of the filter panel, each one void when its filter
    is not set. *)
Record passes (filters : Filters.t) (searchFilter : string) (r : Strain.t) : Prop := {
  passes_rating :
    Filters.rating_value (Filters.rating filters) = 0 ∨
    ∃ z, Strain.rating r = Some z ∧ Filters.rating_value (Filters.rating filters) ≤ z;
  passes_effects :
    Filters.effects filters = "" ∨
    ∃ l, Strain.effects r = Some l ∧ In (Filters.effects filters) l;
  passes_brand :
    Filters.brand filters = "" ∨
    ∃ b, Strain.brand r = Some b ∧ contains_ci b (Filters.brand filters);
  passes_type :
    Filters.type filters = "" ∨ Strain.type r = Some (Filters.type filters);
  passes_terpene :
    Filters.terpene filters = "" ∨
    ∃ l, Strain.terpenes r = Some l ∧ In (Filters.terpene filters) l;
  passes_search :
    searchFilter = "" ∨
    ∃ n, Strain.strainName r = Some n ∧ contains_ci n searchFilter;
}.

(** A record as the form writes it: a name, a brand (possibly empty), the
    two tag arrays and a rating that is not negative. *)
Record entry (r : Strain.t) : Prop := {
  entry_strainName : is_Some (Strain.strainName r);
  entry_brand : is_Some (Strain.brand r);
  entry_effects : is_Some (Strain.effects r);
  entry_terpenes : is_Some (Strain.terpenes r);
  entry_rating : ∃ z, Strain.rating r = Some z ∧ 0 ≤ z;
}.


(** [a] is rated at least as high as [b]. *)
Definition rated_ge (a b : Strain.t) : Prop :=
  ∃ ra rb, Strain.rating a = Some ra ∧ Strain.rating b = Some rb ∧ rb ≤ ra.

(** A rating from 0 to 5, where the record has one. *)
Definition rating_in_range (s : Strain.t) : Prop :=
  ∀ z, Strain.rating s = Some z → 0 ≤ z ≤ 5.

(** The sum of the ratings that the records hold. *)
Definition rating_sum (strains : list Strain.t) : Z :=
  foldr (λ s acc, default 0 (Strain.rating s) + acc) 0 strains.

(** [n / 10] is a multiple of one tenth nearest to [a / b]:
    [|n / 10 - a / b| <= 1 / 20], for [0 < b]. *)
Definition nearest_tenth (n a b : Z) : Prop :=
  Z.abs (2 * (n * b - 10 * a)) ≤ b.

(** [a / b] in tenths, rounded to the nearest one, a half going up:
    [floor (10 * a / b + 1 / 2)], for [0 < b]. *)
Definition half_up_tenths (a b : Z) : Z := (20 * a + b) / (2 * b).

(** [a / b] lies exactly halfway between two tenths. *)
Definition halfway (a b : Z) : Prop := (20 * a + b) mod (2 * b) = 0.

(** The decimal digit [d], and the numeral of [n] tenths for
    [0 <= n < 100]: a digit, the point, a digit. *)
Definition digit (d : Z) : ascii := ascii_of_nat (48 + Z.to_nat d).

Definition one_decimal (n : Z) : string :=
  String (digit (n / 10)) (String "." (String (digit (n mod 10)) "")).

(** The form data hold a list of at most three terpenes. *)
Definition terpenes_ok (formData : Strain.t) : Prop :=
  ∃ l, Strain.terpenes formData = Some l ∧ (length l ≤ 3)%nat.

(** Whether an identity carries the prefix of the mock admin role. *)
Definition admin_id (u : option user) : bool :=
  match u with
  | Some u => startsWith (uid u) "admin_"
  | None => false
  end.

(** ** A session used in the examples *)

Module Sample.

(** A clock that advances by a second at each reading, ids numbered from
    zero, and a store that accepts every request. *)
Definition E : env :=
  {| now := λ n, "2024-01-01T00:00:0" +:+ pretty n +:+ ".000Z";
     autoId := λ n, "doc" +:+ pretty n;
     accepts := λ _, true |}.

(** The application once the identity [alice] has been resolved. *)
Definition alice : sys := snd (authStateChanged (Some {| uid := "alice" |}) booted).

Definition blueDream : Strain.t :=
  Form.handleRating 4 (Form.handleChange Form.strainName "Blue Dream" Form.blank).

Definition ogKush : Strain.t :=
  Form.handleRating 2 (Form.handleChange Form.strainName "OG Kush" Form.blank).

(** A record that another client wrote without a [brand]. *)
Definition noBrand : Strain.t := Strain.set_brand None blueDream.

(** [alice] logs Blue Dream, then edits the entry to rate it 5. *)
Definition created : sys := snd (logStrain E blueDream None alice).

Definition updated : sys :=
  snd (logStrain E (Form.handleRating 5 blueDream) (Some "doc0") created).

(** The listeners then deliver the two collections. *)
Definition synced : sys :=
  snd ((privateSnapshot (private_docs "alice" (store created));;
        publicSnapshot (community_docs (store created))) created).

(** An admin identity followed by an ordinary one. *)
Definition handover : sys :=
  snd (authStateChanges [Some {| uid := "admin_1" |}; Some {| uid := "bob" |}] booted).

End Sample.

(** ** Vocabulary of the further properties *)

(** Every private record carries the identity it is stored under. *)
Definition owned (b : backend) : Prop :=
  ∀ u d r, strains b !! (u, d) = Some r → Strain.userId r = Some u.

(** Every record of either collection is a well-formed entry. *)
Definition entries_only (b : backend) : Prop :=
  (∀ k r, strains b !! k = Some r → entry r) ∧
  (∀ d r, community_strains b !! d = Some r → entry r).

(** The ratings given in a series of form events are not negative (the
    hearts give 1 to 5). *)
Definition rates_nonneg (evs : list Form.event) : Prop :=
  ∀ r, Form.Rate r ∈ evs → 0 ≤ r.

(** A string that is one segment of a document path: not empty, and
    without a slash. *)
Definition is_segment (s : string) : bool :=
  truthy s && negb (includes s "/").

(** The document, if one is named, is named by a single segment. *)
Definition addressable (docId : option string) : Prop :=
  ∀ d, docId = Some d → d ≠ "" → is_segment d = true.

(** A request that writes, and one that deletes the given document. *)
Definition is_SetDoc (r : request) : Prop :=
  match r with SetDoc _ _ _ => True | DeleteDoc _ => False end.

(** ** Further scenarios *)

Module Scenario.

(** A store that rejects every request, and one that accepts only the
    first. *)
Definition offline : env :=
  {| now := now Sample.E; autoId := autoId Sample.E; accepts := λ _, false |}.


(** The record that [Sample.created] holds for Blue Dream. *)
Definition stored : Strain.t :=
  Strain.set_updatedAt (Some "2024-01-01T00:00:01.000Z")
    (Strain.set_createdAt (Some "2024-01-01T00:00:00.000Z")
       (Strain.set_userId (Some "alice") Sample.blueDream)).

(** Twenty entries, seven rated 1 and thirteen unrated: the mean is
    7/20 = 0.35. *)
Definition sevenOfTwenty : list Strain.t :=
  replicate 7 (Form.handleRating 1 Form.blank) ++ replicate 13 Form.blank.

(** [App] before its first effect has run. *)
Definition unstarted : sys :=
  {| ui := App.initial; store := {| strains := ∅; community_strains := ∅ |};
     requests := []; console := []; dates := 0; ids := 0 |}.

End Scenario.

(* ================================================================== *)
(** * Properties of the JavaScript primitives *)
(* ================================================================== *)

Section Primitives.

Lemma append_String (c : ascii) (p post : string) :
  String c p +:+ post = String c (p +:+ post).
Proof. reflexivity. Qed.

Lemma prefix_append (p s : string) :
  String.prefix p s = true ↔ ∃ post, s = p +:+ post.
Proof.
  revert s. induction p as [|c p IH]; intros s; simpl.
  - destruct s; split; eauto.
  - destruct s as [|d s]; simpl.
    + split; [discriminate | intros [post H]; discriminate].
    + setoid_rewrite append_String. destruct (ascii_dec c d) as [->|Hne].
      * rewrite IH. split; intros [post H]; exists post; congruence.
      * split; [discriminate | intros [post H]; congruence].
Qed.

Lemma includes_cons (c : ascii) (s sub : string) :
  includes (String c s) sub = String.prefix sub (String c s) || includes s sub.
Proof. reflexivity. Qed.

Lemma includes_empty (sub : string) : includes "" sub = String.prefix sub "".
Proof. unfold includes. apply orb_false_r. Qed.

(** [includes] finds exactly the substrings. *)
Lemma includes_substring (s sub : string) :
  includes s sub = true ↔ ∃ pre post, s = pre +:+ sub +:+ post.
Proof.
  induction s as [|c s IH].
  - rewrite includes_empty, prefix_append. split.
    + intros [post H]. by exists "", post.
    + intros (pre & post & H).
      destruct pre; [eauto | rewrite append_String in H; discriminate].
  - rewrite includes_cons, orb_true_iff, prefix_append, IH. split.
    + intros [[post H]|(pre & post & H)].
      * by exists "", post.
      * exists (String c pre), post. rewrite append_String. by rewrite H.
    + intros (pre & post & H). destruct pre as [|d pre].
      * left. eauto.
      * right. exists pre, post. rewrite append_String in H. congruence.
Qed.

Lemma array_includes_In (l : list string) (x : string) :
  array_includes l x = true ↔ In x l.
Proof.
  unfold array_includes. rewrite existsb_exists. split.
  - intros (y & Hy & Heq). apply String.eqb_eq in Heq. by subst.
  - intros H. exists x. split; [done | apply String.eqb_refl].
Qed.

Lemma truthy_false (s : string) : truthy s = false ↔ s = "".
Proof. destruct s; simpl; split; congruence. Qed.

Lemma truthy_true (s : string) : truthy s = true ↔ s ≠ "".
Proof. destruct s; simpl; split; congruence. Qed.

(** ** Lower case *)

Lemma nat_of_lower_char (c : ascii) :
  nat_of_ascii (lower_char c)
  = (if (65 <=? nat_of_ascii c) && (nat_of_ascii c <=? 90)
     then nat_of_ascii c + 32 else nat_of_ascii c)%nat.
Proof.
  unfold lower_char.
  destruct ((65 <=? nat_of_ascii c) && (nat_of_ascii c <=? 90))%nat eqn:H; [|done].
  apply andb_true_iff in H as [_ H%Nat.leb_le]. apply nat_ascii_embedding. lia.
Qed.

Lemma lower_char_letter (n : nat) :
  (65 ≤ n ≤ 90)%nat →
  lower_char (ascii_of_nat n) = ascii_of_nat (n + 32) ∧
  lower_char (ascii_of_nat (n + 32)) = ascii_of_nat (n + 32).
Proof.
  intros Hn. unfold lower_char. rewrite !nat_ascii_embedding by lia.
  destruct (Nat.leb_spec 65 n); [|lia].
  destruct (Nat.leb_spec n 90); [|lia].
  destruct (Nat.leb_spec (n + 32) 90); [lia |].
  by rewrite andb_false_r.
Qed.

(** Two characters have one lower case exactly when they are equal or the
    two forms of a letter. *)
Lemma lower_char_same_letter (a b : ascii) :
  lower_char a = lower_char b ↔ same_letter a b.
Proof.
  split.
  - intros H. apply (f_equal nat_of_ascii) in H. rewrite !nat_of_lower_char in H.
    pose proof (ascii_nat_embedding a) as Ha.
    pose proof (ascii_nat_embedding b) as Hb.
    destruct ((65 <=? nat_of_ascii a) && (nat_of_ascii a <=? 90))%nat eqn:Ua,
             ((65 <=? nat_of_ascii b) && (nat_of_ascii b <=? 90))%nat eqn:Ub.
    + left. rewrite <- Ha, <- Hb. f_equal. lia.
    + right. apply andb_true_iff in Ua as [U1%Nat.leb_le U2%Nat.leb_le].
      exists (nat_of_ascii a). split; [lia |]. left. by rewrite H, Ha, Hb.
    + right. apply andb_true_iff in Ub as [U1%Nat.leb_le U2%Nat.leb_le].
      exists (nat_of_ascii b). split; [lia |]. right. by rewrite <- H, Ha, Hb.
    + left. by rewrite <- Ha, <- Hb, H.
  - intros [->|(n & Hn & [[-> ->]|[-> ->]])]; [done | |];
      destruct (lower_char_letter n Hn) as [H1 H2]; congruence.
Qed.

Lemma toLowerCase_same_text (s t : string) :
  toLowerCase s = toLowerCase t ↔ same_text s t.
Proof.
  revert t. induction s as [|a s IH]; intros [|b t]; simpl.
  - split; [constructor | done].
  - split; [discriminate | inversion 1].
  - split; [discriminate | inversion 1].
  - split.
    + intros [= Hc Hs]. constructor; [by apply lower_char_same_letter | by apply IH].
    + inversion 1 as [|? ? ? ? Hc Hs]; subst.
      f_equal; [by apply lower_char_same_letter | by apply IH].
Qed.

Lemma toLowerCase_append (s t : string) :
  toLowerCase (s +:+ t) = toLowerCase s +:+ toLowerCase t.
Proof. induction s as [|c s IH]; simpl; [done | by rewrite IH]. Qed.

Lemma toLowerCase_split (s a b : string) :
  toLowerCase s = a +:+ b →
  ∃ s1 s2, s = s1 +:+ s2 ∧ toLowerCase s1 = a ∧ toLowerCase s2 = b.
Proof.
  revert s. induction a as [|c a IH]; intros s H.
  - by exists "", s.
  - destruct s as [|d s]; [discriminate |]. simpl in H. injection H as Hc Hs.
    destruct (IH _ Hs) as (s1 & s2 & -> & H1 & H2).
    exists (String d s1), s2. simpl. by rewrite Hc, H1.
Qed.

(** The comparison of the history and community screens: the lowered
    needle is found in the lowered field exactly when some part of the
    field is the needle up to the case of letters. *)
Lemma includes_contains_ci (field needle : string) :
  includes (toLowerCase field) (toLowerCase needle) = true ↔ contains_ci field needle.
Proof.
  rewrite includes_substring. split.
  - intros (pre & post & H).
    apply toLowerCase_split in H as (s1 & s2 & -> & _ & H).
    apply toLowerCase_split in H as (mid & s3 & -> & H & _).
    exists s1, mid, s3. split; [done | by apply toLowerCase_same_text].
  - intros (pre & mid & post & -> & H%toLowerCase_same_text).
    exists (toLowerCase pre), (toLowerCase post).
    by rewrite !toLowerCase_append, H.
Qed.

(** ** Filtering with a callback that returns *)

Lemma filter_Return {A} (p : A → completion bool) (q : A → bool) (l : list A) :
  (∀ x, x ∈ l → p x = Return (q x)) →
  Js.filter p l = Return (List.filter q l).
Proof.
  induction l as [|x l IH]; intros H; simpl; [done |].
  rewrite (H x) by left. simpl.
  rewrite IH by (intros y Hy; apply H; by right). simpl.
  by destruct (q x).
Qed.

Lemma filter_Throw {A} (p : A → completion bool) (e : error) (l : list A) (x : A) :
  x ∈ l → p x = Throw e →
  (∀ y e', p y = Throw e' → e' = e) →
  Js.filter p l = Throw e.
Proof.
  intros Hin Hx Hall. induction l as [|y l IH]; [by apply not_elem_of_nil in Hin |].
  simpl. destruct (p y) as [b|e'] eqn:Hy; simpl.
  - apply elem_of_cons in Hin as [->|Hin]; [congruence |].
    by rewrite IH.
  - by rewrite (Hall _ _ Hy).
Qed.

(** ** Sorting *)

Context {A : Type} (cmp : A → A → option Z).

Lemma sort_insert_Permutation (x : A) (l : list A) :
  Permutation (sort_insert cmp x l) (x :: l).
Proof.
  induction l as [|y l IH]; simpl; [done |].
  destruct (0 <? sortCompare cmp x y); [|done].
  rewrite IH. apply perm_swap.
Qed.

Lemma sort_Permutation (l : list A) : Permutation (sort cmp l) l.
Proof.
  induction l as [|x l IH]; simpl; [done |].
  fold (sort cmp l). by rewrite sort_insert_Permutation, IH.
Qed.

(** An element moves behind another one only if the comparator says it is
    strictly greater: elements that compare equal keep their order. *)
Lemma sort_insert_stable (P : A → bool) (x : A) (l : list A) :
  (∀ y, P x = true → P y = true → sortCompare cmp x y ≤ 0) →
  List.filter P (sort_insert cmp x l) = List.filter P (x :: l).
Proof.
  intros Heq. induction l as [|y l IH]; [done |]. simpl.
  destruct (0 <? sortCompare cmp x y) eqn:Hlt; [|done].
  simpl. rewrite IH. simpl.
  destruct (P x) eqn:Hx, (P y) eqn:Hy; try done.
  apply Z.ltb_lt in Hlt. specialize (Heq y eq_refl Hy). lia.
Qed.

Lemma sort_stable (P : A → bool) (l : list A) :
  (∀ x y, P x = true → P y = true → sortCompare cmp x y ≤ 0) →
  List.filter P (sort cmp l) = List.filter P l.
Proof.
  intros Heq. induction l as [|x l IH]; [done |]. simpl. fold (sort cmp l).
  rewrite sort_insert_stable by eauto. simpl. by rewrite IH.
Qed.

(** With a comparator that decides a total preorder [R], the result is
    sorted. *)
Lemma sort_insert_Sorted (R : A → A → Prop) (x : A) (l : list A) :
  (∀ y, y ∈ l → sortCompare cmp x y ≤ 0 → R x y) →
  (∀ y, y ∈ l → 0 < sortCompare cmp x y → R y x) →
  Sorted R l → Sorted R (sort_insert cmp x l).
Proof.
  intros Hle Hgt Hs. induction l as [|y l IH]; simpl.
  - repeat constructor.
  - destruct (0 <? sortCompare cmp x y) eqn:Hlt.
    + apply Z.ltb_lt in Hlt. apply Sorted_inv in Hs as [Hs Hhd].
      constructor.
      * apply IH; [intros; apply Hle | intros; apply Hgt | done]; try done; by right.
      * destruct l as [|z l]; simpl.
        -- constructor. apply Hgt; [left | done].
        -- destruct (0 <? sortCompare cmp x z); constructor.
           ++ by apply HdRel_inv in Hhd.
           ++ apply Hgt; [left | done].
    + apply Z.ltb_ge in Hlt. constructor; [done |].
      constructor. apply Hle; [left | done].
Qed.

Lemma sort_Sorted (R : A → A → Prop) (l : list A) :
  (∀ x y, x ∈ l → y ∈ l → sortCompare cmp x y ≤ 0 → R x y) →
  (∀ x y, x ∈ l → y ∈ l → 0 < sortCompare cmp x y → R y x) →
  Sorted R (sort cmp l).
Proof.
  induction l as [|x l IH]; intros Hle Hgt; simpl; [constructor |].
  fold (sort cmp l).
  assert (Hin : ∀ y, y ∈ sort cmp l → y ∈ l).
  { intros y Hy. by rewrite <- (sort_Permutation l). }
  apply sort_insert_Sorted.
  - intros y Hy. apply Hle; [left | right; auto].
  - intros y Hy. apply Hgt; [left | right; auto].
  - apply IH; intros; [apply Hle | apply Hgt]; try done; by right.
Qed.

End Primitives.

(** Adjacent elements of a sorted list are related. *)
Lemma Sorted_adjacent {A} (R : A → A → Prop) (l : list A) (i : nat) (a b : A) :
  Sorted R l → l !! i = Some a → l !! S i = Some b → R a b.
Proof.
  intros Hs. revert i. induction Hs as [|x l Hs IH Hhd]; intros i Ha Hb; [done |].
  destruct i as [|i]; simpl in *.
  - injection Ha as ->. destruct l as [|y l]; [done |].
    simpl in Hb. injection Hb as ->. by apply HdRel_inv in Hhd.
  - eauto.
Qed.

(* ================================================================== *)
(** * Properties of the history screen *)
(* ================================================================== *)

Section History.

Variable filters : Filters.t.
Variable searchFilter : string.

Lemma rating_guard (r : Strain.t) :
  (Filters.rating filters = Filters.RStr 0 → ∃ z, Strain.rating r = Some z ∧ 0 ≤ z) →
  rating_is_0 (Filters.rating filters)
    || rating_ge (Strain.rating r) (Filters.rating filters) = true
  ↔ Filters.rating_value (Filters.rating filters) = 0 ∨
    ∃ z, Strain.rating r = Some z ∧ Filters.rating_value (Filters.rating filters) ≤ z.
Proof.
  rewrite orb_true_iff. destruct (Filters.rating filters) as [n|n]; intros Hr; simpl.
  - unfold rating_ge. destruct (Strain.rating r) as [z|]; simpl;
      rewrite Z.eqb_eq, ?Z.leb_le; split.
    + intros [H|H]; [by left | right; eauto].
    + intros [H|(z' & [= <-] & H)]; [by left | by right].
    + intros [H|H]; [by left | done].
    + intros [H|(z' & H & _)]; [by left | done].
  - destruct (Z.eq_dec n 0) as [->|Hn].
    + destruct (Hr eq_refl) as (z & Hz & Hpos). rewrite Hz. simpl.
      rewrite Z.leb_le. split; [by left | by right].
    + unfold rating_ge. destruct (Strain.rating r) as [z|]; simpl;
        rewrite ?Z.leb_le; split.
      * intros [H|H]; [done | right; eauto].
      * intros [H|(z' & [= <-] & H)]; [done | by right].
      * intros [H|H]; done.
      * intros [H|(z' & H & _)]; done.
Qed.

Lemma tags_guard (tags : option (list string)) (tag : string) :
  (tag ≠ "" → is_Some tags) →
  ∃ b, (if negb (truthy tag) then Return true else tags_include tags tag) = Return b
       ∧ (b = true ↔ tag = "" ∨ ∃ l', tags = Some l' ∧ In tag l').
Proof.
  intros Hp. destruct (truthy tag) eqn:Ht; simpl.
  - apply truthy_true in Ht. destruct (Hp Ht) as [l ->]. eexists; split; [done |].
    rewrite array_includes_In. split; [eauto |].
    intros [H|(l' & [= <-] & H)]; done.
  - apply truthy_false in Ht. exists true. split; [done |]. split; auto.
Qed.

Lemma text_guard (field : option string) (needle : string) :
  (needle ≠ "" → is_Some field) →
  ∃ b, (if negb (truthy needle) then Return true else text_includes field needle) = Return b
       ∧ (b = true ↔ needle = "" ∨ ∃ t', field = Some t' ∧ contains_ci t' needle).
Proof.
  intros Hp. destruct (truthy needle) eqn:Ht; simpl.
  - apply truthy_true in Ht. destruct (Hp Ht) as [t ->]. eexists; split; [done |].
    rewrite includes_contains_ci. split; [eauto |].
    intros [H|(t' & [= <-] & H)]; done.
  - apply truthy_false in Ht. exists true. split; [done |]. split; auto.
Qed.

Lemma type_guard (field : option string) (ty : string) :
  negb (truthy ty) || type_is field ty = true ↔ ty = "" ∨ field = Some ty.
Proof.
  rewrite orb_true_iff, negb_true_iff, truthy_false. unfold type_is.
  destruct field as [t|].
  - rewrite String.eqb_eq. split; intros [H|H]; auto; right; congruence.
  - split; intros [H|H]; auto; discriminate.
Qed.

(** Where the record has the field of every filter that is set, the
    callback returns, and it returns [true] exactly when the six
    conditions hold. *)
Lemma matches_present (r : Strain.t) :
  (Filters.rating filters = Filters.RStr 0 → ∃ z, Strain.rating r = Some z ∧ 0 ≤ z) →
  (Filters.effects filters ≠ "" → is_Some (Strain.effects r)) →
  (Filters.brand filters ≠ "" → is_Some (Strain.brand r)) →
  (Filters.terpene filters ≠ "" → is_Some (Strain.terpenes r)) →
  (searchFilter ≠ "" → is_Some (Strain.strainName r)) →
  ∃ b, matches filters searchFilter r = Return b
       ∧ (b = true ↔ passes filters searchFilter r).
Proof.
  intros Hr Hle Hb Hlt Hn. unfold matches.
  destruct (tags_guard _ (Filters.effects filters) Hle) as (b1 & -> & H1).
  destruct (text_guard _ (Filters.brand filters) Hb) as (b2 & -> & H2).
  destruct (tags_guard _ (Filters.terpene filters) Hlt) as (b3 & -> & H3).
  destruct (text_guard _ searchFilter Hn) as (b4 & -> & H4).
  simpl. eexists; split; [done |].
  rewrite !andb_true_iff, (rating_guard r Hr), type_guard, H1, H2, H3, H4.
  split.
  - intros (((((? & ?) & ?) & ?) & ?) & ?). by constructor.
  - intros []. done.
Qed.

(** So it does on a well-formed entry. *)
Lemma matches_passes (r : Strain.t) :
  entry r →
  ∃ b, matches filters searchFilter r = Return b
       ∧ (b = true ↔ passes filters searchFilter r).
Proof. intros [Hn Hb Hle Hlt Hr]. by apply matches_present. Qed.

(** The callback only ever throws a [TypeError]. *)
Lemma matches_Throw (r : Strain.t) (e : error) :
  matches filters searchFilter r = Throw e → e = TypeError.
Proof.
  unfold matches, tags_include, text_includes.
  repeat match goal with
         | |- context [if ?c then _ else _] => destruct c
         | |- context [match ?o with Some _ => _ | None => _ end] => destruct o
         end; simpl; congruence.
Qed.

(** It throws whenever a set filter meets a record without the field. *)
Lemma matches_missing (r : Strain.t) :
  (Strain.brand r = None ∧ Filters.brand filters ≠ "") ∨
  (Strain.effects r = None ∧ Filters.effects filters ≠ "") ∨
  (Strain.terpenes r = None ∧ Filters.terpene filters ≠ "") →
  matches filters searchFilter r = Throw TypeError.
Proof.
  intros H.
  destruct (matches filters searchFilter r) as [b|e] eqn:Hm;
    [|by rewrite (matches_Throw _ _ Hm)].
  exfalso. revert Hm. unfold matches, tags_include, text_includes.
  destruct H as [[-> H]|[[-> H]|[-> H]]]; apply truthy_true in H; rewrite H; simpl;
    repeat match goal with
           | |- context [if ?c then _ else _] => destruct c
           | |- context [match ?o with Some _ => _ | None => _ end] => destruct o
           end; simpl; congruence.
Qed.

End History.

Lemma filter_sublist {A} (p : A → completion bool) (l out : list A) :
  Js.filter p l = Return out → sublist out l.
Proof.
  revert out. induction l as [|x l IH]; intros out; simpl.
  - intros [= <-]. constructor.
  - destruct (p x) as [b|]; [|done]. simpl.
    destruct (Js.filter p l) as [r|]; [|done]. simpl.
    intros [= <-]. destruct b; [apply sublist_skip | apply sublist_cons]; auto.
Qed.

Lemma by_rating_desc_compare (a b : Strain.t) (ra rb : Z) :
  Strain.rating a = Some ra → Strain.rating b = Some rb →
  sortCompare by_rating_desc a b = rb - ra.
Proof. intros Ha Hb. unfold sortCompare, by_rating_desc. by rewrite Ha, Hb. Qed.



(** In that witness the search text "DREAM" keeps the record named
    "Blue Dream", which has no brand, and drops "OG Kush". *)
Example filteredStrains_conjunction_scenario :
  filteredStrains [Sample.ogKush; Sample.noBrand]
    (Filters.mk (Filters.RStr 3) "" "" "" "" "Hybrid" "" "") "DREAM"
  = Return [Sample.noBrand] ∧
  contains_ci "Blue Dream" "DREAM" ∧ ¬ contains_ci "OG Kush" "DREAM".
Proof.
  split; [reflexivity |]. split; by rewrite <- includes_contains_ci.
Qed.

(** The scenario of the specification: with the rating filter at 3 only
    Blue Dream (rated 4) is left of Blue Dream and OG Kush (rated 2). *)
Example filteredStrains_scenario :
  filteredStrains [Sample.blueDream; Sample.ogKush]
    (Filters.mk (Filters.RStr 3) "" "" "" "" "" "" "") ""
  = Return [Sample.blueDream].
Proof. reflexivity. Qed.



(** C7: when every displayed record has a rating, the history view is in
    descending order of rating - each record is rated at least as high
    as the one after it - and nothing else decides the order: the result
    is a rearrangement of the records kept by the filter in which records
    of one rating stay in the order they had in the displayed list. *)
Theorem filteredStrains_sorted (data out : list Strain.t) (filters : Filters.t)
    (searchFilter : string) :
  Forall (λ r, is_Some (Strain.rating r)) data →
  filteredStrains data filters searchFilter = Return out →
  (∀ i a b, out !! i = Some a → out !! S i = Some b → rated_ge a b) ∧
  ∃ kept, Js.filter (matches filters searchFilter) data = Return kept ∧
          sublist kept data ∧ Permutation out kept ∧
          ∀ z, List.filter (λ r, bool_decide (Strain.rating r = Some z)) out
               = List.filter (λ r, bool_decide (Strain.rating r = Some z)) kept.
Proof.
  intros Hdata. unfold filteredStrains.
  destruct (Js.filter (matches filters searchFilter) data) as [kept|] eqn:Hk;
    [|done].
  simpl. intros [= <-].
  pose proof (filter_sublist _ _ _ Hk) as Hsub.
  assert (Hkept : ∀ r, r ∈ kept → is_Some (Strain.rating r)).
  { intros r Hr. rewrite Forall_forall in Hdata. apply Hdata.
    by eapply elem_of_sublist. }
  split.
  - intros i a b. apply Sorted_adjacent. apply sort_Sorted.
    + intros x y [rx Hx]%Hkept [ry Hy]%Hkept.
      rewrite (by_rating_desc_compare _ _ _ _ Hx Hy). intros H.
      exists rx, ry. repeat split; [done.. | lia].
    + intros x y [rx Hx]%Hkept [ry Hy]%Hkept.
      rewrite (by_rating_desc_compare _ _ _ _ Hx Hy). intros H.
      exists ry, rx. repeat split; [done.. | lia].
  - exists kept. repeat split; [done | apply sort_Permutation |].
    intros z. apply sort_stable. intros x y Hx%bool_decide_eq_true Hy%bool_decide_eq_true.
    rewrite (by_rating_desc_compare _ _ _ _ Hx Hy). lia.
Qed.

Lemma filteredStrains_sorted_witness :
  (∀ i a b, [Sample.blueDream; Sample.ogKush] !! i = Some a →
            [Sample.blueDream; Sample.ogKush] !! S i = Some b → rated_ge a b) ∧
  ∃ kept, Js.filter (matches Filters.initial "") [Sample.ogKush; Sample.blueDream]
          = Return kept ∧
          sublist kept [Sample.ogKush; Sample.blueDream] ∧
          Permutation [Sample.blueDream; Sample.ogKush] kept ∧
          ∀ z, List.filter (λ r, bool_decide (Strain.rating r = Some z))
                 [Sample.blueDream; Sample.ogKush]
               = List.filter (λ r, bool_decide (Strain.rating r = Some z)) kept.
Proof.
  apply (filteredStrains_sorted [Sample.ogKush; Sample.blueDream]
           [Sample.blueDream; Sample.ogKush] Filters.initial "").
  - repeat constructor; eexists; reflexivity.
  - reflexivity.
Defined.


(** C10: the history view does not return unless every record has the
    field that a set filter reads: if some displayed record has no
    [brand] while the brand filter is non-empty, or no [effects] while the
    effects filter is set, or no [terpenes] while the terpene filter is
    set, evaluating the view throws a [TypeError]. *)
Theorem filteredStrains_missing_field (data : list Strain.t) (filters : Filters.t)
    (searchFilter : string) (r : Strain.t) :
  r ∈ data →
  (Strain.brand r = None ∧ Filters.brand filters ≠ "") ∨
  (Strain.effects r = None ∧ Filters.effects filters ≠ "") ∨
  (Strain.terpenes r = None ∧ Filters.terpene filters ≠ "") →
  filteredStrains data filters searchFilter = Throw TypeError.
Proof.
  intros Hin Hmiss. unfold filteredStrains.
  rewrite (filter_Throw _ TypeError data r); [done | done | |].
  - by apply matches_missing.
  - intros y e. apply matches_Throw.
Qed.

Lemma filteredStrains_missing_field_witness :
  filteredStrains [Sample.blueDream; Sample.noBrand]
    (Filters.mk (Filters.RNum 0) "" "" "" "Cookies" "" "" "") "" = Throw TypeError.
Proof.
  apply (filteredStrains_missing_field _ _ _ Sample.noBrand).
  - right. left.
  - left. split; [reflexivity | discriminate].
Defined.


(* ================================================================== *)
(** * Properties of the average rating *)
(* ================================================================== *)

Lemma div_nearest_even_near (n d : Z) :
  0 ≤ n → 0 < d → Z.abs (2 * (div_nearest_even n d * d - n)) ≤ d.
Proof.
  intros Hn Hd. unfold div_nearest_even.
  pose proof (Z.div_mod n d ltac:(lia)) as Hdm.
  pose proof (Z.mod_pos_bound n d Hd) as Hr.
  set (q := n / d) in *. set (r := n mod d) in *.
  destruct (2 * r <? d) eqn:H1; [apply Z.ltb_lt in H1; nia |].
  apply Z.ltb_ge in H1.
  destruct (d <? 2 * r) eqn:H2; [apply Z.ltb_lt in H2; nia |].
  apply Z.ltb_ge in H2.
  destruct (Z.even q); nia.
Qed.

(** The exponent chosen by [quot_log2] does not exceed the true one. *)
Lemma quot_log2_le (a b : Z) :
  0 < a → 0 < b →
  let e := quot_log2 a b in
  (0 ≤ e → b * 2 ^ e ≤ a) ∧ (e < 0 → b ≤ a * 2 ^ (- e)) ∧ - Z.log2 b - 1 ≤ e.
Proof.
  intros Ha Hb. unfold quot_log2.
  pose proof (Z.log2_spec a Ha) as [Ha1 Ha2].
  pose proof (Z.log2_spec b Hb) as [Hb1 Hb2].
  pose proof (Z.log2_nonneg a) as Hla. pose proof (Z.log2_nonneg b) as Hlb.
  rewrite Z.pow_succ_r in Ha2, Hb2 by done.
  set (la := Z.log2 a) in *. set (lb := Z.log2 b) in *.
  unfold scale2.
  destruct (0 <=? - (la - lb)) eqn:Hs.
  - apply Z.leb_le in Hs.
    destruct (b <=? a * 2 ^ (- (la - lb))) eqn:Ht.
    + apply Z.leb_le in Ht. simpl. split; [|split; [|lia]].
      * intros He. assert (la - lb = 0) as Hz by lia. rewrite Hz in *.
        change (2 ^ (- 0)) with 1 in Ht. change (2 ^ 0) with 1. lia.
      * intros He. done.
    + simpl. split; [lia |]. split; [|lia]. intros _.
      replace (- (la - lb - 1)) with (lb + 1 - la) by lia.
      assert (2 * 2 ^ lb = 2 ^ la * 2 ^ (lb + 1 - la)) as Hp.
      { rewrite <- Z.pow_add_r, <- Z.pow_succ_r by lia. f_equal. lia. }
      assert (0 < 2 ^ (lb + 1 - la)) by (apply Z.pow_pos_nonneg; lia).
      nia.
  - apply Z.leb_gt in Hs.
    destruct (b * 2 ^ (- - (la - lb)) <=? a) eqn:Ht.
    + apply Z.leb_le in Ht. simpl. rewrite Z.opp_involutive in Ht.
      split; [done |]. split; lia.
    + simpl. split; [|split; lia]. intros He.
      assert (2 ^ la = 2 ^ lb * 2 ^ (la - lb - 1) * 2) as Hp.
      { replace la with (lb + (la - lb - 1) + 1) at 1 by lia.
        rewrite !Z.pow_add_r by lia. reflexivity. }
      assert (0 < 2 ^ (la - lb - 1)) by (apply Z.pow_pos_nonneg; lia).
      nia.
Qed.

Lemma tenths_nearest (a b m k : Z) :
  0 < b → 0 < k → 10 * b < 2 ^ k →
  Z.abs (2 * (m * b - a * 2 ^ k)) ≤ b →
  0 ≤ m →
  0 ≤ tenths m (- k) ∧ nearest_tenth (tenths m (- k)) a b.
Proof.
  intros Hb Hk Hsmall Hm Hm0. unfold tenths, nearest_tenth.
  destruct (0 <=? - k) eqn:Hs; [apply Z.leb_le in Hs; lia |].
  rewrite Z.opp_involutive, Z.pow_add_r by lia. change (2 ^ 1) with 2.
  assert (0 < 2 ^ k) as HP by (apply Z.pow_pos_nonneg; lia).
  set (P := 2 ^ k) in *. clearbody P.
  pose proof (Z.div_mod (20 * m + P) (P * 2) ltac:(lia)) as Hdm.
  pose proof (Z.mod_pos_bound (20 * m + P) (P * 2) ltac:(lia)) as Hr.
  set (T := (20 * m + P) / (P * 2)) in *.
  set (r := (20 * m + P) mod (P * 2)) in *. clearbody T r.
  apply Z.abs_le in Hm.
  split.
  - nia.
  - apply Z.abs_le. split.
    + (* 2Tb - 20a >= -b *)
      destruct (Z_le_gt_dec (- b) (2 * (T * b - 10 * a))) as [|Hc]; [done |].
      exfalso.
      assert (P ≤ P * (20 * a - b - 2 * T * b)) by nia.
      assert (20 * m * b < (2 * T + 1) * P * b) by nia.
      nia.
    + destruct (Z_le_gt_dec (2 * (T * b - 10 * a)) b) as [|Hc]; [done |].
      exfalso.
      assert (P ≤ P * (2 * T * b - 20 * a - b)) by nia.
      assert ((2 * T - 1) * P * b ≤ 20 * m * b) by nia.
      nia.
Qed.

Lemma quot_pos_tenths (a b : Z) :
  0 ≤ a → 0 < b → 20 * a < 2 ^ 53 → b < 2 ^ 1000 →
  ∃ m e, quot_pos a b = (m, e) ∧
         0 ≤ tenths m e ∧ nearest_tenth (tenths m e) a b.
Proof.
  intros Ha Hb Hsmall Hbig. unfold quot_pos.
  destruct (a =? 0) eqn:Ha0.
  { apply Z.eqb_eq in Ha0 as ->. exists 0, 0. split; [done |].
    unfold nearest_tenth. change (tenths 0 0) with 0. lia. }
  apply Z.eqb_neq in Ha0. assert (0 < a) as Hpos by lia.
  destruct (quot_log2_le a b Hpos Hb) as (He1 & He2 & He3).
  set (e := quot_log2 a b) in *. clearbody e.
  assert (Z.log2 b < 1000) as Hlb by (apply Z.log2_lt_pow2; lia).
  assert (e < 49) as He49.
  { destruct (Z_lt_le_dec e 49) as [|Hge]; [done | exfalso].
    assert (2 ^ 49 ≤ 2 ^ e) by (apply Z.pow_le_mono_r; lia).
    specialize (He1 ltac:(lia)). change (2 ^ 53) with (16 * 2 ^ 49) in Hsmall. nia. }
  rewrite Z.min_l by lia.
  set (k := 52 - e) in *.
  assert (0 < 2 ^ k) as HP by (apply Z.pow_pos_nonneg; lia).
  assert (10 * b < 2 ^ k) as Hk.
  { destruct (Z_le_gt_dec 0 e) as [Hge|Hlt].
    - specialize (He1 Hge).
      assert (2 ^ 52 = 2 ^ e * 2 ^ k) as Hp.
      { rewrite <- Z.pow_add_r by lia. f_equal; lia. }
      assert (0 < 2 ^ e) by (apply Z.pow_pos_nonneg; lia).
      change (2 ^ 53) with (2 * 2 ^ 52) in Hsmall. nia.
    - specialize (He2 ltac:(lia)).
      assert (2 ^ k = 2 ^ 52 * 2 ^ (- e)) as Hp.
      { rewrite <- Z.pow_add_r by lia. f_equal; lia. }
      assert (0 < 2 ^ (- e)) by (apply Z.pow_pos_nonneg; lia).
      change (2 ^ 53) with (2 * 2 ^ 52) in Hsmall. nia. }
  unfold scale2. destruct (0 <=? k) eqn:Hs; [|apply Z.leb_gt in Hs; lia].
  eexists _, _. split; [done |].
  assert (0 ≤ a * 2 ^ k) as Hn by nia.
  pose proof (div_nearest_even_near (a * 2 ^ k) b Hn Hb) as Hm.
  apply tenths_nearest; [done | lia | done | done |].
  apply Z.abs_le in Hm. nia.
Qed.

Lemma rating_or_0_default (s : Strain.t) :
  rating_or_0 s = default 0 (Strain.rating s).
Proof. unfold rating_or_0. by destruct (Strain.rating s). Qed.

Lemma fold_left_rating_sum (strains : list Strain.t) (acc : Z) :
  fold_left (λ sum s, sum + rating_or_0 s) strains acc = acc + rating_sum strains.
Proof.
  revert acc. induction strains as [|s l IH]; intros acc; simpl; [lia |].
  rewrite IH, rating_or_0_default. lia.
Qed.

Lemma total_rating_sum (strains : list Strain.t) :
  total strains = rating_sum strains.
Proof. unfold total. by rewrite fold_left_rating_sum. Qed.

Lemma rating_sum_bounds (strains : list Strain.t) :
  Forall rating_in_range strains →
  0 ≤ rating_sum strains ≤ 5 * Z.of_nat (length strains).
Proof.
  induction 1 as [|s l Hs _ IH]; simpl; [lia |].
  rewrite Nat2Z.inj_succ. unfold rating_in_range in Hs.
  destruct (Strain.rating s) as [z|]; simpl; [specialize (Hs z eq_refl) |]; lia.
Qed.

(** The numeral of a number below ten is its digit. *)
Lemma pretty_digit (d : Z) : 0 ≤ d ≤ 9 → pretty d = String (digit d) "".
Proof.
  intros Hd.
  assert (d = 0 ∨ d = 1 ∨ d = 2 ∨ d = 3 ∨ d = 4 ∨ d = 5 ∨ d = 6 ∨ d = 7 ∨
          d = 8 ∨ d = 9) as H by lia.
  repeat (destruct H as [->|H]; [reflexivity |]). by subst.
Qed.

Lemma fixed1_digits_one_decimal (n : Z) :
  0 ≤ n < 100 → fixed1_digits n = one_decimal n.
Proof.
  intros Hn. unfold fixed1_digits, one_decimal.
  pose proof (Z.mod_pos_bound n 10 ltac:(lia)).
  assert (0 ≤ n / 10 ≤ 9).
  { split; [apply Z.div_pos; lia |].
    assert (n / 10 < 10) by (apply Z.div_lt_upper_bound; lia). lia. }
  by rewrite !pretty_digit by lia.
Qed.

(** A tenth nearest to [a / b] is [a / b] rounded half up, or the tenth
    below it when [a / b] is halfway between the two. *)
Lemma nearest_tenth_half_up (n a b : Z) :
  0 < b → nearest_tenth n a b →
  n = half_up_tenths a b ∨ (halfway a b ∧ n = half_up_tenths a b - 1).
Proof.
  unfold nearest_tenth, half_up_tenths, halfway. intros Hb Hn.
  apply Z.abs_le in Hn.
  pose proof (Z.div_mod (20 * a + b) (2 * b) ltac:(lia)) as Hdm.
  pose proof (Z.mod_pos_bound (20 * a + b) (2 * b) ltac:(lia)) as Hr.
  set (h := (20 * a + b) / (2 * b)) in *.
  set (r := (20 * a + b) mod (2 * b)) in *. clearbody h r.
  assert (n ≤ h).
  { destruct (Z_le_gt_dec n h) as [|Hc]; [done | exfalso].
    assert (2 * b * (h + 1) ≤ 2 * b * n) by (apply Z.mul_le_mono_nonneg_l; lia).
    lia. }
  assert (h - 1 ≤ n).
  { destruct (Z_le_gt_dec (h - 1) n) as [|Hc]; [done | exfalso].
    assert (2 * b * n ≤ 2 * b * (h - 2)) by (apply Z.mul_le_mono_nonneg_l; lia).
    lia. }
  destruct (Z.eq_dec n h) as [->|Hne]; [by left | right].
  assert (n = h - 1) as -> by lia. split; [lia | done].
Qed.

(** The text of a non-empty list's average: the numeral of a tenth nearest
    to the mean. *)
Lemma averageRating_tenths (strains : list Strain.t) :
  strains ≠ [] →
  Forall rating_in_range strains →
  Z.of_nat (length strains) < 2 ^ 46 →
  ∃ n, averageRating strains = Str (one_decimal n) ∧ 0 ≤ n ≤ 50 ∧
       nearest_tenth n (rating_sum strains) (Z.of_nat (length strains)).
Proof.
  intros Hne Hr Hlen. destruct strains as [|s l]; [done |].
  pose proof (rating_sum_bounds _ Hr) as Hsum.
  unfold averageRating. rewrite total_rating_sum.
  set (strains := s :: l) in *. set (a := rating_sum strains) in *.
  assert (Z.pos (Pos.of_nat (length strains)) = Z.of_nat (length strains)) as Hb.
  { rewrite <- positive_nat_Z, Nat2Pos.id; done. }
  assert (0 < Z.of_nat (length strains)) as Hpos by (simpl; lia).
  destruct (quot_pos_tenths a (Z.of_nat (length strains))) as (m & e & Hq & Hn & Hnear).
  - lia.
  - done.
  - change (2 ^ 53) with (128 * 2 ^ 46). lia.
  - eapply Z.lt_trans; [done | done].
  - exists (tenths m e).
    assert (tenths m e ≤ 50) as Hle.
    { unfold nearest_tenth in Hnear. apply Z.abs_le in Hnear. nia. }
    split; [|split; [lia | done]].
    unfold toFixed1, div.
    rewrite Hb, Z.abs_eq, Hq by lia. simpl.
    destruct (a <? 0) eqn:Hneg; [apply Z.ltb_lt in Hneg; lia |].
    by rewrite fixed1_digits_one_decimal by lia.
Qed.

(** C3, amended: the average shown on the dashboard is the number [0] for
    an empty list - no [NaN], no exception - and for a non-empty list
    (ratings from 0 to 5, a record without one adding nothing) it is the
    text, with one decimal, of the arithmetic mean of the ratings rounded
    to the nearest tenth; only when the mean lies exactly halfway between
    two tenths may the text be that of the lower tenth instead of the
    upper one. *)
Theorem averageRating_mean (strains : list Strain.t) :
  Forall rating_in_range strains →
  Z.of_nat (length strains) < 2 ^ 46 →
  match strains with
  | [] => averageRating strains = Num 0
  | _ :: _ =>
      averageRating strains
      = Str (one_decimal (half_up_tenths (rating_sum strains)
                            (Z.of_nat (length strains)))) ∨
      (halfway (rating_sum strains) (Z.of_nat (length strains)) ∧
       averageRating strains
       = Str (one_decimal (half_up_tenths (rating_sum strains)
                             (Z.of_nat (length strains)) - 1)))
  end.
Proof.
  intros Hr Hlen. destruct strains as [|s l]; [done |].
  destruct (averageRating_tenths (s :: l)) as (n & Hn & _ & Hnear); [done.. |].
  apply nearest_tenth_half_up in Hnear as [<-|[Hh Hm]]; [| |simpl; lia].
  - by left.
  - right. split; [done |]. rewrite Hn. do 2 f_equal. lia.
Qed.

Lemma averageRating_mean_witness :
  averageRating [Sample.blueDream; Sample.ogKush]
  = Str (one_decimal (half_up_tenths (rating_sum [Sample.blueDream; Sample.ogKush]) 2)) ∨
  (halfway (rating_sum [Sample.blueDream; Sample.ogKush]) 2 ∧
   averageRating [Sample.blueDream; Sample.ogKush]
   = Str (one_decimal (half_up_tenths (rating_sum [Sample.blueDream; Sample.ogKush]) 2 - 1))).
Proof.
  apply (averageRating_mean [Sample.blueDream; Sample.ogKush]).
  - repeat (constructor; [intros z [= <-]; lia |]). constructor.
  - reflexivity.
Defined.

(** C3 as stated fails at a mean that is halfway between two tenths: of
    twenty entries seven are rated 1 and thirteen 0, the mean is
    7/20 = 0.35, which rounded to one decimal place is 0.4 (half up, and
    half to even as well), and the dashboard shows "0.3". *)
Lemma averageRating_halfway_counterexample :
  Forall rating_in_range Scenario.sevenOfTwenty ∧
  rating_sum Scenario.sevenOfTwenty = 7 ∧
  length Scenario.sevenOfTwenty = 20%nat ∧
  one_decimal (half_up_tenths 7 20) = "0.4" ∧
  averageRating Scenario.sevenOfTwenty = Str "0.3" ∧
  averageRating Scenario.sevenOfTwenty
  ≠ Str (one_decimal (half_up_tenths (rating_sum Scenario.sevenOfTwenty)
                        (Z.of_nat (length Scenario.sevenOfTwenty)))).
Proof.
  split; [|repeat split; try reflexivity; vm_compute; discriminate].
  unfold Scenario.sevenOfTwenty. apply Forall_app. split; apply Forall_replicate;
    intros z [= <-]; lia.
Qed.

(** The scenario of the specification: ratings 4 and 2 average to "3.0". *)
Example averageRating_scenario :
  averageRating [Sample.blueDream; Sample.ogKush] = Str "3.0".
Proof. reflexivity. Qed.

(** After [alice] has logged Blue Dream and the listeners have delivered,
    both averages on the dashboard read "4.0". *)
Example dashboard_scenario :
  myAverageRating (ui Sample.synced) = Str "4.0" ∧
  communityAverageRating (ui Sample.synced) = Str "4.0".
Proof. split; reflexivity. Qed.

(** A mean that lies halfway between two tenths is printed from its
    double: [1/4] is exact and goes up, [7/20] is stored just below 0.35
    and goes down. *)
Example toFixed1_halfway :
  toFixed1 (div 1 4) = "0.3" ∧ toFixed1 (div 7 20) = "0.3".
Proof. split; reflexivity. Qed.


(* ================================================================== *)
(** * Properties of the mutation gateway *)
(* ================================================================== *)


(** Unfolds a handler down to the state it returns. *)
Ltac run_M :=
  unfold logStrain, deleteStrain, try_catch, setDoc, deleteDoc, send, doc_strain,
    newId, new_Date_toISOString, console_log, console_error, set_app, get_app,
    mbind, mret, M_bind, M_ret.



Section GatewayFacts.

Variable E : env.


(** What an accepted update leaves in the record: the identity, and the
    clock in both [createdAt] and [updatedAt]. *)
Lemma logStrain_update (s : sys) (strainData old : Strain.t) (userId docId : string) :
  is_Some (App.db (ui s)) →
  App.userId (ui s) = Some userId → userId ≠ "" → docId ≠ "" →
  accepts E (length (requests s)) = true →
  strains (store s) !! (userId, docId) = Some old →
  let s' := snd (logStrain E strainData (Some docId) s) in
  ∃ new,
    strains (store s') = <[(userId, docId) := new]> (strains (store s)) ∧
    Strain.userId new = Some userId ∧
    Strain.createdAt new = Some (now E (dates s)) ∧
    Strain.updatedAt new = Some (now E (S (dates s))).
Proof.
  intros [db Hdb] Hu Hne Hd Ha Hold s'. subst s'.
  apply truthy_true in Hne, Hd.
  run_M. rewrite Hdb, Hu, Hne. simpl. rewrite Hd. simpl. rewrite Ha. simpl.
  rewrite Hold. simpl. eexists. split; [done |]. done.
Qed.

(** C5: an update - [logStrain] with a document id - and a delete leave
    the community collection exactly as it was, whatever the store answers;
    a delete changes nothing in the private collections either, except
    that the record of that id of the current identity is gone. *)
Theorem update_delete_keep_community (s : sys) (strainData : Strain.t)
    (docId deleted : string) :
  docId ≠ "" →
  community_strains (store (snd (logStrain E strainData (Some docId) s)))
    = community_strains (store s) ∧
  community_strains (store (snd (deleteStrain E deleted s)))
    = community_strains (store s) ∧
  ∀ key,
    strains (store (snd (deleteStrain E deleted s))) !! key = strains (store s) !! key ∨
    (App.userId (ui s) = Some key.1 ∧ key.2 = deleted ∧
     strains (store (snd (deleteStrain E deleted s))) !! key = None).
Proof.
  intros Hd. apply truthy_true in Hd. split; [|split].
  - run_M. destruct (App.db (ui s)), (App.userId (ui s)) as [u|]; try done.
    destruct (truthy u); [|done]. simpl. rewrite Hd. simpl.
    by destruct (accepts E (length (requests s))).
  - run_M. destruct (App.db (ui s)), (App.userId (ui s)) as [u|]; try done.
    destruct (truthy u); [|done]. simpl.
    destruct (truthy deleted); [|done].
    by destruct (accepts E (length (requests s))).
  - intros key. run_M.
    destruct (App.db (ui s)), (App.userId (ui s)) as [u|]; try (by left).
    destruct (truthy u); [|by left]. simpl.
    destruct (truthy deleted); [|by left].
    destruct (accepts E (length (requests s))); [|by left]. simpl.
    destruct (decide (key = (u, deleted))) as [->|Hne].
    + right. by rewrite lookup_delete_eq.
    + left. by rewrite lookup_delete_ne.
Qed.

(** C6: while there is no identity, or no store handle, [logStrain] -
    create or update - and [deleteStrain] return at once: no request is
    sent, no collection changes, no id is generated and the clock is not
    read; [logStrain] only writes its complaint to the console. *)
Theorem rejected_without_identity (s : sys) (strainData : Strain.t)
    (docId : option string) (deleted : string) :
  App.userId (ui s) = None ∨ App.db (ui s) = None →
  logStrain E strainData docId s
  = (Return (), {| ui := ui s; store := store s; requests := requests s;
                   console := Error "DB or User ID not ready." :: console s;
                   dates := dates s; ids := ids s |})
  ∧ deleteStrain E deleted s = (Return (), s).
Proof.
  intros H. unfold logStrain, deleteStrain, get_app, mbind, M_bind.
  destruct (App.db (ui s)), (App.userId (ui s));
    destruct H as [H|H]; try discriminate; done.
Qed.

(** An identity whose id is the empty string is no identity either. *)
Lemma rejected_with_empty_identity (s : sys) (strainData : Strain.t)
    (docId : option string) (deleted : string) :
  App.userId (ui s) = Some "" →
  requests (snd (logStrain E strainData docId s)) = requests s ∧
  store (snd (logStrain E strainData docId s)) = store s ∧
  deleteStrain E deleted s = (Return (), s).
Proof.
  intros H. unfold logStrain, deleteStrain, get_app, mbind, M_bind.
  rewrite H. by destruct (App.db (ui s)).
Qed.


End GatewayFacts.


Lemma update_delete_keep_community_witness :
  community_strains (store Sample.updated) = community_strains (store Sample.created) ∧
  community_strains (store (snd (deleteStrain Sample.E "doc0" Sample.created)))
    = community_strains (store Sample.created) ∧
  ∀ key,
    strains (store (snd (deleteStrain Sample.E "doc0" Sample.created))) !! key
      = strains (store Sample.created) !! key ∨
    (App.userId (ui Sample.created) = Some key.1 ∧ key.2 = "doc0" ∧
     strains (store (snd (deleteStrain Sample.E "doc0" Sample.created))) !! key = None).
Proof.
  apply (update_delete_keep_community Sample.E Sample.created
           (Form.handleRating 5 Sample.blueDream) "doc0" "doc0").
  discriminate.
Defined.

Lemma rejected_without_identity_witness :
  logStrain Sample.E Sample.blueDream None booted
  = (Return (), {| ui := ui booted; store := store booted; requests := requests booted;
                   console := Error "DB or User ID not ready." :: console booted;
                   dates := dates booted; ids := ids booted |})
  ∧ deleteStrain Sample.E "doc0" booted = (Return (), booted).
Proof.
  apply (rejected_without_identity Sample.E booted Sample.blueDream None "doc0").
  left. reflexivity.
Defined.

(** C2, at an update that leaves [userId] out of its input.  The record
    was created at the first reading of the clock; the update keeps the
    owner and moves [updatedAt] to the time of the write, but it also
    moves [createdAt], which therefore does not stay what it was. *)
Theorem update_overwrites_createdAt :
  Strain.userId (Form.handleRating 5 Sample.blueDream) = None ∧
  (strains (store Sample.created) !! ("alice", "doc0")
   ≫= λ r, Some (Strain.userId r, Strain.createdAt r, Strain.updatedAt r))
  = Some (Some "alice", Some "2024-01-01T00:00:00.000Z", Some "2024-01-01T00:00:01.000Z") ∧
  (strains (store Sample.updated) !! ("alice", "doc0")
   ≫= λ r, Some (Strain.userId r, Strain.createdAt r, Strain.updatedAt r))
  = Some (Some "alice", Some "2024-01-01T00:00:03.000Z", Some "2024-01-01T00:00:04.000Z").
Proof. repeat split; reflexivity. Qed.

(* ================================================================== *)
(** * Properties of the form *)
(* ================================================================== *)

Lemma handleTerpenesSelect_ok (sel : list string) (prev : Strain.t) :
  terpenes_ok prev → terpenes_ok (Form.handleTerpenesSelect sel prev).1.
Proof.
  intros Hprev. unfold Form.handleTerpenesSelect.
  destruct (length sel <=? 3)%nat eqn:Hlen; [|done].
  apply Nat.leb_le in Hlen. by exists sel.
Qed.

Lemma step_terpenes_ok (ev : Form.event) (formData formData' : Strain.t) :
  terpenes_ok formData → Form.step ev formData = Return formData' →
  terpenes_ok formData'.
Proof.
  intros Hok. destruct ev as [name value|r|effect|sel]; simpl.
  - intros [= <-]. by destruct name.
  - by intros [= <-].
  - unfold Form.handleEffectsToggle. destruct (Strain.effects formData); [|done].
    by intros [= <-].
  - intros [= <-]. by apply handleTerpenesSelect_ok.
Qed.

Lemma run_terpenes_ok (evs : list Form.event) (formData formData' : Strain.t) :
  terpenes_ok formData → Form.run evs formData = Return formData' →
  terpenes_ok formData'.
Proof.
  revert formData. induction evs as [|ev evs IH]; intros formData Hok; simpl.
  - by intros [= <-].
  - destruct (Form.step ev formData) as [next|] eqn:Hstep; [|done]. simpl.
    apply IH. by eapply step_terpenes_ok.
Qed.





(* ================================================================== *)
(** * Properties of the session *)
(* ================================================================== *)

Lemma authStateChanged_state (u : option user) (s : sys) :
  App.isAdmin (ui (snd (authStateChanged u s))) = App.isAdmin (ui s) || admin_id u
  ∧ App.userId (ui (snd (authStateChanged u s))) = uid <$> u
  ∧ App.isAuthReady (ui (snd (authStateChanged u s))) = true.
Proof.
  unfold authStateChanged, admin_id. run_M.
  destruct u as [u|]; simpl.
  - destruct (startsWith (uid u) "admin_"); simpl; rewrite ?orb_true_r, ?orb_false_r; done.
  - by rewrite orb_false_r.
Qed.

(** The flag is raised by the first identity with the prefix and stays up:
    after any series of identities it tells whether one of them had it. *)
Lemma authStateChanges_isAdmin (us : list (option user)) (s : sys) :
  App.isAdmin (ui (snd (authStateChanges us s)))
  = App.isAdmin (ui s) || existsb admin_id us.
Proof.
  revert s. induction us as [|u us IH]; intros s; simpl.
  - by rewrite orb_false_r.
  - unfold mbind, M_bind.
    destruct (authStateChanged u s) as [[[]|e] s1] eqn:Hs1.
    + rewrite IH. replace s1 with (snd (authStateChanged u s)) by by rewrite Hs1.
      destruct (authStateChanged_state u s) as (-> & _). by rewrite orb_assoc.
    + exfalso. revert Hs1. unfold authStateChanged. run_M.
      destruct u as [u|]; [destruct (startsWith (uid u) "admin_")|]; done.
Qed.

(** The first resolution of the identity sets the flag as the prefix
    says. *)
Lemma first_identity_isAdmin (u : option user) :
  let s := snd (authStateChanged u booted) in
  App.isAdmin (ui s) = true ↔ ∃ i, App.userId (ui s) = Some i ∧ startsWith i "admin_" = true.
Proof.
  destruct (authStateChanged_state u booted) as (Ha & Hu & _).
  simpl. rewrite Ha, Hu. simpl. destruct u as [u|]; simpl.
  - split; [eauto | by intros (i & [= <-] & H)].
  - split; [done | by intros (i & H & _)].
Qed.

(** C9, at an admin identity followed by an ordinary one.  The listener
    raises the flag for the first and never lowers it: once the session
    belongs to [bob], whose id does not start with [admin_], it is still
    flagged as admin. *)
Theorem admin_flag_outlives_identity :
  App.userId (ui Sample.handover) = Some "bob" ∧
  startsWith "bob" "admin_" = false ∧
  App.isAdmin (ui Sample.handover) = true.
Proof. repeat split; reflexivity. Qed.

(* ================================================================== *)
(** * Further properties of the mutation gateway *)
(* ================================================================== *)

Lemma userId_assign (old new : Strain.t) (u : string) :
  Strain.userId new = Some u → Strain.userId (Strain.assign old new) = Some u.
Proof. intros H. unfold Strain.assign. simpl. by rewrite H. Qed.


Lemma is_segment_truthy (s : string) : is_segment s = true → truthy s = true.
Proof. unfold is_segment. by intros [H _]%andb_true_iff. Qed.

Section GatewayMore.

Variable E : env.

(** X1: the private documents of every other identity are out of reach of
    [logStrain] and [deleteStrain]: whatever the input, the document id and
    the answer of the store, they are left as they were. *)
Theorem gateway_other_identities (s : sys) (strainData : Strain.t)
    (docId : option string) (deleted v d : string) :
  App.userId (ui s) ≠ Some v →
  strains (store (snd (logStrain E strainData docId s))) !! (v, d)
    = strains (store s) !! (v, d) ∧
  strains (store (snd (deleteStrain E deleted s))) !! (v, d)
    = strains (store s) !! (v, d).
Proof.
  intros Hv. split; run_M;
    destruct (App.db (ui s)), (App.userId (ui s)) as [u|]; try done;
    destruct (truthy u); try done; simpl.
  - destruct docId as [i|]; [destruct (truthy i) eqn:Hi|]; simpl; rewrite ?Hi; simpl;
      destruct (accepts E (length (requests s))); simpl; try done;
      try destruct (accepts E (S (length (requests s)))); simpl;
      rewrite lookup_insert_ne; congruence.
  - destruct (truthy deleted); [|done].
    destruct (accepts E (length (requests s))); simpl; [|done].
    rewrite lookup_delete_ne; congruence.
Qed.

(** X2: if every private record carries the identity it is stored under, it
    still does after [logStrain] and after [deleteStrain]. *)
Theorem gateway_keeps_owned (s : sys) (strainData : Strain.t)
    (docId : option string) (deleted : string) :
  owned (store s) →
  owned (store (snd (logStrain E strainData docId s))) ∧
  owned (store (snd (deleteStrain E deleted s))).
Proof.
  intros Hown. split; run_M;
    destruct (App.db (ui s)), (App.userId (ui s)) as [u|]; try done;
    destruct (truthy u); try done; simpl.
  - assert (∀ i data b,
              strains b = <[(u, i) := Strain.assign
                                        (default Strain.empty (strains (store s) !! (u, i)))
                                        (Strain.set_updatedAt (Some (now E (S (dates s))))
                                           (Strain.set_createdAt (Some (now E (dates s)))
                                              (Strain.set_userId (Some u) data)))]>
                            (strains (store s)) → owned b) as Hins.
    { intros i data b Hb u' d' r. rewrite Hb.
      destruct (decide ((u, i) = (u', d'))) as [[= <- <-]|Hne].
      - rewrite lookup_insert_eq. intros [= <-]. by apply userId_assign.
      - rewrite lookup_insert_ne by done. apply Hown. }
    destruct docId as [i|]; [destruct (truthy i) eqn:Hi|]; simpl; rewrite ?Hi; simpl;
      destruct (accepts E (length (requests s))); simpl; try done;
      try destruct (accepts E (S (length (requests s)))); simpl;
      by eapply Hins.
  - destruct (truthy deleted); [|done].
    destruct (accepts E (length (requests s))); simpl; [|done].
    intros u' d' r Hr. simpl in Hr.
    apply lookup_delete_Some in Hr as [_ Hr]. by eapply Hown.
Qed.

(** X3: when the store rejects the first write of [logStrain], create or
    update (the identity, and the document id if one is given, each a
    single path segment), nothing is stored anywhere, no second write is
    tried, the failure goes to the console and the page stays where it
    was. *)
Theorem logStrain_write_rejected (s : sys) (strainData : Strain.t)
    (docId : option string) (u : string) :
  is_Some (App.db (ui s)) → App.userId (ui s) = Some u →
  is_segment u = true → addressable docId →
  accepts E (length (requests s)) = false →
  let s' := snd (logStrain E strainData docId s) in
  store s' = store s ∧
  (∃ r, requests s' = r :: requests s ∧ is_SetDoc r) ∧
  console s' = Error "Error adding document: " :: console s ∧
  ui s' = ui s.
Proof.
  intros [db Hdb] Hu Hne%is_segment_truthy _ Ha s'. subst s'.
  run_M. rewrite Hdb, Hu, Hne. simpl.
  destruct docId as [i|]; [destruct (truthy i) eqn:Hi|]; simpl; rewrite ?Hi; simpl;
    rewrite Ha; simpl; (split; [done |]); (split; [by eexists |]); done.
Qed.





(** X8: deleting a document that is not there changes neither collection,
    whatever the store answers. *)
Theorem deleteStrain_missing (s : sys) (deleted : string) :
  (∀ u, App.userId (ui s) = Some u → strains (store s) !! (u, deleted) = None) →
  strains (store (snd (deleteStrain E deleted s))) = strains (store s) ∧
  community_strains (store (snd (deleteStrain E deleted s))) = community_strains (store s).
Proof.
  intros Hnone. run_M.
  destruct (App.db (ui s)), (App.userId (ui s)) as [u|]; try done.
  destruct (truthy u); [|done]. simpl.
  destruct (truthy deleted); [|done].
  destruct (accepts E (length (requests s))); simpl; [|done].
  by rewrite delete_id by auto.
Qed.

(** X9: [logStrain] sends at most two requests, at most one when it is given
    a document id, and all of them are writes; [deleteStrain] sends at
    most one request, the deletion of that document of the current
    identity. *)
Theorem gateway_requests (s : sys) (strainData : Strain.t)
    (docId : option string) (deleted : string) :
  (∃ new, requests (snd (logStrain E strainData docId s)) = new ++ requests s ∧
          (length new ≤ if truthy_opt docId then 1 else 2)%nat ∧
          Forall is_SetDoc new) ∧
  (requests (snd (deleteStrain E deleted s)) = requests s ∨
   ∃ u, App.userId (ui s) = Some u ∧
        requests (snd (deleteStrain E deleted s))
        = DeleteDoc (UserStrain u deleted) :: requests s).
Proof.
  split.
  - assert (∀ (b : bool) (l : list request),
              ∃ new, l = new ++ l ∧ (length new ≤ if b then 1 else 2)%nat ∧
                     Forall is_SetDoc new) as Hnone.
    { intros b l. exists nil. repeat split; simpl; [destruct b; lia | done]. }
    assert (∀ (b : bool) (l : list request) r,
              is_SetDoc r →
              ∃ new, r :: l = new ++ l ∧ (length new ≤ if b then 1 else 2)%nat ∧
                     Forall is_SetDoc new) as Hone.
    { intros b l r Hr. exists (r :: nil).
      repeat split; simpl; [destruct b; lia | by repeat constructor]. }
    assert (∀ (l : list request) r r',
              is_SetDoc r → is_SetDoc r' →
              ∃ new, r :: r' :: l = new ++ l ∧ (length new ≤ 2)%nat ∧
                     Forall is_SetDoc new) as Htwo.
    { intros l r r' Hr Hr'. exists (r :: r' :: nil).
      repeat split; simpl; [lia | by repeat constructor]. }
    run_M. destruct (App.db (ui s)), (App.userId (ui s)) as [u|]; try apply Hnone.
    destruct (truthy u); [|apply Hnone]. simpl.
    destruct docId as [i|]; [destruct (truthy i) eqn:Hi|]; simpl; rewrite ?Hi; simpl;
      destruct (accepts E (length (requests s))); simpl;
      try destruct (accepts E (S (length (requests s)))); simpl;
      first [by apply (Hone true) | by apply (Hone false) | by apply Htwo].
  - run_M. destruct (App.db (ui s)), (App.userId (ui s)) as [u|]; try (by left).
    destruct (truthy u); [|by left]. simpl.
    destruct (truthy deleted); [|by left].
    right. exists u. by destruct (accepts E (length (requests s))).
Qed.

(** X10: when the store accepts what [logStrain] writes (the identity, and
    the document id if one is given, each a single path segment), the
    page becomes the history page - so that is the screen rendered next -
    and the success is logged. *)
Theorem logStrain_success_navigates (s : sys) (strainData : Strain.t)
    (docId : option string) (u : string) :
  is_Some (App.db (ui s)) → App.userId (ui s) = Some u →
  is_segment u = true → addressable docId →
  accepts E (length (requests s)) = true →
  accepts E (S (length (requests s))) = true →
  App.isAuthReady (ui s) = true → App.loading (ui s) = false →
  let s' := snd (logStrain E strainData docId s) in
  App.currentPage (ui s') = "history" ∧
  render (ui s') = HistoryScreen ∧
  console s' = Log "Strain logged/updated successfully." :: console s.
Proof.
  intros [db Hdb] Hu Hne'%is_segment_truthy _ Ha1 Ha2 Hready Hload s'. subst s'.
  run_M. unfold render. rewrite Hdb, Hu, Hne'. simpl.
  destruct docId as [i|]; [destruct (truthy i) eqn:Hi|]; simpl; rewrite ?Hi; simpl;
    rewrite Ha1; simpl; rewrite ?Ha2; simpl;
    rewrite Hready, Hload, Hu; simpl; rewrite Hne'; done.
Qed.

End GatewayMore.

Lemma gateway_other_identities_witness :
  strains (store (snd (logStrain Sample.E Sample.ogKush None Sample.created)))
    !! ("bob", "doc0") = strains (store Sample.created) !! ("bob", "doc0") ∧
  strains (store (snd (deleteStrain Sample.E "doc0" Sample.created)))
    !! ("bob", "doc0") = strains (store Sample.created) !! ("bob", "doc0").
Proof.
  apply (gateway_other_identities Sample.E Sample.created Sample.ogKush None "doc0").
  discriminate.
Defined.

Lemma gateway_keeps_owned_witness :
  owned (store (snd (logStrain Sample.E Sample.blueDream None Sample.alice))) ∧
  owned (store (snd (deleteStrain Sample.E "doc0" Sample.alice))).
Proof.
  apply (gateway_keeps_owned Sample.E Sample.alice Sample.blueDream None "doc0").
  intros u d r H. discriminate.
Defined.

Lemma logStrain_write_rejected_witness :
  let s' := snd (logStrain Scenario.offline Sample.blueDream (Some "doc0") Sample.alice) in
  store s' = store Sample.alice ∧
  (∃ r, requests s' = r :: requests Sample.alice ∧ is_SetDoc r) ∧
  console s' = Error "Error adding document: " :: console Sample.alice ∧
  ui s' = ui Sample.alice.
Proof.
  apply (logStrain_write_rejected Scenario.offline Sample.alice Sample.blueDream
           (Some "doc0") "alice").
  - eexists; reflexivity.
  - reflexivity.
  - reflexivity.
  - intros d [= <-] _. reflexivity.
  - reflexivity.
Defined.





Lemma deleteStrain_missing_witness :
  strains (store (snd (deleteStrain Sample.E "nothing" Sample.created)))
    = strains (store Sample.created) ∧
  community_strains (store (snd (deleteStrain Sample.E "nothing" Sample.created)))
    = community_strains (store Sample.created).
Proof.
  apply (deleteStrain_missing Sample.E Sample.created "nothing").
  intros u [= <-]. reflexivity.
Defined.

Lemma logStrain_success_navigates_witness :
  let s' := snd (logStrain Sample.E Sample.blueDream (Some "doc0") Sample.alice) in
  App.currentPage (ui s') = "history" ∧
  render (ui s') = HistoryScreen ∧
  console s' = Log "Strain logged/updated successfully." :: console Sample.alice.
Proof.
  apply (logStrain_success_navigates Sample.E Sample.alice Sample.blueDream
           (Some "doc0") "alice").
  - eexists; reflexivity.
  - reflexivity.
  - reflexivity.
  - intros d [= <-] _. reflexivity.
  - reflexivity.
  - reflexivity.
  - reflexivity.
  - reflexivity.
Defined.

(* ================================================================== *)
(** * Further properties of the session and of start-up *)
(* ================================================================== *)

(** The listener always returns, sets the identity it was given and the
    two readiness cells, and leaves the store and the requests alone. *)
Lemma authStateChanged_Return (u : option user) (s : sys) :
  ∃ s', authStateChanged u s = (Return (), s') ∧
        App.userId (ui s') = uid <$> u ∧
        App.isAuthReady (ui s') = true ∧ App.loading (ui s') = false ∧
        App.db (ui s') = App.db (ui s) ∧
        App.currentPage (ui s') = App.currentPage (ui s) ∧
        store s' = store s ∧ requests s' = requests s.
Proof.
  unfold authStateChanged. run_M.
  destruct u as [u|]; [destruct (startsWith (uid u) "admin_")|]; simpl;
    eexists; (split; [reflexivity |]); done.
Qed.

Lemma authStateChanges_app (us vs : list (option user)) (s : sys) :
  snd (authStateChanges (us ++ vs) s)
  = snd (authStateChanges vs (snd (authStateChanges us s))).
Proof.
  revert s. induction us as [|u us IH]; intros s; simpl; [done |].
  unfold mbind, M_bind.
  destruct (authStateChanged_Return u s) as (s1 & -> & _). apply IH.
Qed.

Lemma authStateChanges_frame (us : list (option user)) (s : sys) :
  let s' := snd (authStateChanges us s) in
  App.db (ui s') = App.db (ui s) ∧ App.currentPage (ui s') = App.currentPage (ui s) ∧
  store s' = store s ∧ requests s' = requests s.
Proof.
  revert s. induction us as [|u us IH]; intros s; simpl; [done |].
  unfold mbind, M_bind.
  destruct (authStateChanged_Return u s) as (s1 & -> & _ & _ & _ & Hdb & Hp & Hs & Hr).
  destruct (IH s1) as (-> & -> & -> & ->). done.
Qed.

(** X12: the admin flag only ever goes up: after any series of identities it
    is set exactly if it was set before or one of the identities - not
    necessarily the current one - had an id starting with [admin_]. *)
Theorem admin_flag_sticky (us : list (option user)) (s : sys) :
  App.isAdmin (ui (snd (authStateChanges us s))) = true
  ↔ App.isAdmin (ui s) = true ∨
    ∃ u, Some u ∈ us ∧ startsWith (uid u) "admin_" = true.
Proof.
  rewrite authStateChanges_isAdmin, orb_true_iff, existsb_exists.
  split; (intros [H|H]; [by left | right]).
  - destruct H as ([u|] & Hin & Hu); [|done]. exists u. by rewrite list_elem_of_In.
  - destruct H as (u & Hin & Hu). exists (Some u). by rewrite <- list_elem_of_In.
Qed.

(** X11: after any series of identities the session shows the last one: its id
    is the current [userId], the loader is gone for good, and the
    login-required card is what is rendered exactly when the last
    identity is null or has an empty id.  The listener never touches the
    store. *)
Theorem authStateChanges_last (us : list (option user)) (u : option user) (s : sys) :
  let s' := snd (authStateChanges (us ++ [u]) s) in
  App.userId (ui s') = uid <$> u ∧
  App.isAuthReady (ui s') = true ∧ App.loading (ui s') = false ∧
  render (ui s') ≠ Loader ∧
  (render (ui s') = LoginRequired ↔ truthy_opt (uid <$> u) = false) ∧
  store s' = store s ∧ requests s' = requests s.
Proof.
  intros s'. subst s'. rewrite authStateChanges_app.
  destruct (authStateChanges_frame us s) as (_ & _ & Hs & Hr).
  set (s0 := snd (authStateChanges us s)) in *. simpl.
  unfold mbind, M_bind.
  destruct (authStateChanged_Return u s0) as (s1 & -> & Hu & Hready & Hload & _ & _ & Hs1 & Hr1).
  simpl. unfold render. rewrite Hu, Hready, Hload, Hs1, Hr1. simpl.
  repeat split; try done.
  - destruct (truthy_opt (uid <$> u)); simpl; [|done].
    destruct (App.currentPage (ui s1) =? "log")%string; [done |].
    by destruct (App.currentPage (ui s1) =? "history")%string.
  - destruct (truthy_opt (uid <$> u)); simpl; [|done].
    destruct (App.currentPage (ui s1) =? "log")%string; [done |].
    by destruct (App.currentPage (ui s1) =? "history")%string.
  - by destruct (truthy_opt (uid <$> u)).
Qed.

(** X13: if the configuration is empty, or the SDK throws while the handles
    are made, the first effect leaves [App] without a store handle and the
    screen rendered is the loader: the failure is only written to the
    console. *)
Theorem initEffect_failure (firebaseConfigKeys : nat)
    (sdk : completion (auth_handle * firestore)) (s : sys) :
  ui s = App.initial →
  firebaseConfigKeys = 0%nat ∨ (∃ e, sdk = Throw e) →
  let s' := snd (initEffect firebaseConfigKeys sdk s) in
  render (ui s') = Loader ∧ App.db (ui s') = None ∧ App.userId (ui s') = None ∧
  (∃ msg, console s' = Error msg :: console s) ∧
  store s' = store s ∧ requests s' = requests s.
Proof.
  intros Hui Hfail s'. subst s'. unfold initEffect. run_M. unfold render.
  destruct (firebaseConfigKeys =? 0)%nat eqn:Hk; simpl.
  - rewrite Hui. simpl. repeat split; by eexists.
  - destruct Hfail as [->|[e ->]]; [done |]. simpl. rewrite Hui. simpl.
    repeat split; by eexists.
Qed.

Lemma initEffect_failure_witness :
  let s' := snd (initEffect 3 (Throw FirebaseError) Scenario.unstarted) in
  render (ui s') = Loader ∧ App.db (ui s') = None ∧ App.userId (ui s') = None ∧
  (∃ msg, console s' = Error msg :: console Scenario.unstarted) ∧
  store s' = store Scenario.unstarted ∧ requests s' = requests Scenario.unstarted.
Proof.
  apply (initEffect_failure 3 (Throw FirebaseError) Scenario.unstarted).
  - reflexivity.
  - right. eexists; reflexivity.
Defined.


(** X14: [authenticate] makes one or two sign-in calls, the second only after
    the first has failed.  It ends normally exactly when the last call
    it made succeeded; and that last call uses the token only if the
    token is a non-empty string and was accepted at once - every other
    run ends on an anonymous sign-in. *)
Theorem authenticate_fallback (initialAuthToken : option string) (ok : nat → bool) :
  let '(calls, _, result) := authenticate initialAuthToken ok in
  (1 ≤ length calls ≤ 2)%nat ∧
  (length calls = 2%nat ↔ ok 0%nat = false) ∧
  (result = Return () ↔ ok (length calls - 1)%nat = true) ∧
  ∀ token, last calls = Some (SignInWithCustomToken token) →
           initialAuthToken = Some token ∧ token ≠ "" ∧ ok 0%nat = true.
Proof.
  unfold authenticate.
  destruct initialAuthToken as [t|]; [destruct (truthy t) eqn:Ht|]; simpl;
    destruct (ok 0%nat) eqn:H0; simpl;
    (split; [lia |]); (split; [split; (done || lia) |]);
    (split; [rewrite ?H0; destruct (ok 1%nat); split; done |]);
    intros token [=]; subst; repeat split; try done.
  by apply truthy_true.
Qed.

(* ================================================================== *)
(** * Further properties of the display helpers *)
(* ================================================================== *)

Lemma length_append (a b : string) :
  String.length (a +:+ b) = (String.length a + String.length b)%nat.
Proof. induction a as [|c a IH]; [done |]. rewrite append_String. simpl. by rewrite IH. Qed.

Lemma length_substring (n m : nat) (s : string) :
  String.length (String.substring n m s) = Nat.min m (String.length s - n).
Proof.
  revert n m. induction s as [|c s IH]; intros n m.
  - destruct n, m; reflexivity.
  - destruct n as [|n]; simpl.
    + destruct m as [|m]; simpl; [done |]. rewrite IH. simpl. lia.
    + rewrite IH. done.
Qed.

(** X15: [formatUserId] shows [Guest] for a null or empty id; any other id is
    cut down to its first four and its last four characters around three
    dots - at most eleven characters, and exactly eleven for an id of four
    characters or more. *)
Theorem formatUserId_length (id : option string) :
  match id with
  | None => formatUserId id = "Guest"
  | Some i =>
      if truthy i then
        formatUserId id
        = substring_to 4 i +:+ "..." +:+ substring_from (String.length i - 4) i ∧
        String.length (formatUserId id) = (2 * Nat.min 4 (String.length i) + 3)%nat
      else formatUserId id = "Guest"
  end.
Proof.
  destruct id as [i|]; [|done]. unfold formatUserId.
  destruct (truthy i); [|done]. split; [done |].
  unfold substring_to, substring_from.
  rewrite !length_append, !length_substring.
  change (String.length "...") with 3%nat. lia.
Qed.

(** X16: [StarRating] always draws five hearts, the filled ones first; their
    number is the rating, cut off at 0 and at 5, and none is filled when
    there is no rating. *)
Theorem StarRating_filled (rating : option Z) :
  StarRating rating
  = match rating with
    | Some r =>
        replicate (Z.to_nat (Z.max 0 (Z.min 5 r))) true
        ++ replicate (5 - Z.to_nat (Z.max 0 (Z.min 5 r))) false
    | None => replicate 5 false
    end.
Proof.
  destruct rating as [r|]; [|done]. unfold StarRating. simpl.
  destruct (Z_le_gt_dec r 0) as [H0|H0].
  { replace (Z.max 0 (Z.min 5 r)) with 0 by lia.
    rewrite !(proj2 (Z.ltb_ge _ _)) by lia. reflexivity. }
  destruct (Z_le_gt_dec 5 r) as [H5|H5].
  { replace (Z.max 0 (Z.min 5 r)) with 5 by lia.
    rewrite !(proj2 (Z.ltb_lt _ _)) by lia. reflexivity. }
  assert (r = 1 ∨ r = 2 ∨ r = 3 ∨ r = 4) as [-> | [-> | [-> | ->]]] by lia; reflexivity.
Qed.

(* ================================================================== *)
(** * Further properties of the views *)
(* ================================================================== *)

Lemma filter_ext {A} (p p' : A → completion bool) (l : list A) :
  (∀ x, x ∈ l → p x = p' x) → Js.filter p l = Js.filter p' l.
Proof.
  induction l as [|x l IH]; intros H; simpl; [done |].
  rewrite (H x) by left. rewrite IH; [done |]. intros y Hy. apply H. by right.
Qed.

Lemma truthy_toLowerCase (s : string) : truthy (toLowerCase s) = truthy s.
Proof. by destruct s. Qed.

(** X17: with no filter set - the state the screen starts in - the history
    view returns for every list, whatever its records lack, and keeps
    every record. *)
Theorem filteredStrains_unfiltered (data : list Strain.t) (potency flavor location : string) :
  ∃ out,
    filteredStrains data (Filters.mk (Filters.RNum 0) potency flavor "" "" "" "" location) ""
    = Return out ∧ out ≡ₚ data.
Proof.
  unfold filteredStrains.
  rewrite (filter_Return _ (λ _, true)) by done. simpl.
  eexists; split; [done |].
  rewrite (sort_Permutation by_rating_desc).
  induction data as [|x l IH]; simpl; [done | by rewrite IH].
Qed.

(** X18: the search box and the brand filter ignore the case of letters: two
    searches, or two brand filters, that are equal once lowered give the
    same view. *)
Theorem filteredStrains_ignores_case (data : list Strain.t) (r : Filters.ratingFilter)
    (po fl ef ty te lo brand1 brand2 search1 search2 : string) :
  toLowerCase brand1 = toLowerCase brand2 →
  toLowerCase search1 = toLowerCase search2 →
  filteredStrains data (Filters.mk r po fl ef brand1 ty te lo) search1
  = filteredStrains data (Filters.mk r po fl ef brand2 ty te lo) search2.
Proof.
  intros Hb Hs. unfold filteredStrains. f_equal.
  apply filter_ext. intros x _. unfold matches, text_includes. simpl.
  rewrite <- (truthy_toLowerCase brand1), <- (truthy_toLowerCase search1), Hb, Hs,
    !truthy_toLowerCase. done.
Qed.

Lemma filteredStrains_ignores_case_witness :
  filteredStrains [Sample.blueDream; Sample.ogKush]
    (Filters.mk (Filters.RNum 0) "" "" "" "COOKIES" "" "" "") "Dream"
  = filteredStrains [Sample.blueDream; Sample.ogKush]
      (Filters.mk (Filters.RNum 0) "" "" "" "cookies" "" "" "") "dREAM".
Proof.
  apply filteredStrains_ignores_case; reflexivity.
Defined.

(** X19: the community cards of the dashboard cannot be computed as soon as
    one community record has no name - even with an empty search box,
    because here the name is read without a guard. *)
Theorem filteredCommunityStrains_throws (communityStrains : list Strain.t)
    (searchFilter : string) :
  filteredCommunityStrains communityStrains searchFilter = Throw TypeError
  ↔ ∃ r, r ∈ communityStrains ∧ Strain.strainName r = None.
Proof.
  unfold filteredCommunityStrains. split.
  - induction communityStrains as [|x l IH]; simpl; [done |].
    destruct (Strain.strainName x) as [n|] eqn:Hn; simpl.
    + intros H. destruct IH as (r & Hr & Hnone).
      { destruct (Js.filter _ l); [|by destruct e]. simpl in H.
        by destruct (includes (toLowerCase n) (toLowerCase searchFilter)). }
      exists r. split; [by right | done].
    + intros _. exists x. split; [by left | done].
  - intros (r & Hr & Hnone).
    rewrite (filter_Throw _ TypeError communityStrains r); [done | done | |].
    + unfold text_includes. by rewrite Hnone.
    + intros y e. unfold text_includes. by destruct (Strain.strainName y); intros [= <-].
Qed.

(** X20: when every community record has a name (text in the ASCII range,
    as the search text), the dashboard shows at most four cards: the first
    records, in the order of the list, whose name contains the search
    text, letter case ignored - all of them if there are fewer than
    four. *)
Theorem filteredCommunityStrains_first_four (communityStrains : list Strain.t)
    (searchFilter : string) :
  is_ascii searchFilter = true →
  Forall (λ r, ∃ n, Strain.strainName r = Some n ∧ is_ascii n = true)
    communityStrains →
  ∃ out,
    filteredCommunityStrains communityStrains searchFilter = Return out ∧
    (length out ≤ 4)%nat ∧ sublist out communityStrains ∧
    (∀ r, r ∈ out → ∃ n, Strain.strainName r = Some n ∧ contains_ci n searchFilter) ∧
    ((length out < 4)%nat →
     ∀ r n, r ∈ communityStrains → Strain.strainName r = Some n →
            contains_ci n searchFilter → r ∈ out).
Proof.
  intros _ Hnames. rewrite Forall_forall in Hnames.
  pose (q := λ r : Strain.t,
               match Strain.strainName r with
               | Some n => includes (toLowerCase n) (toLowerCase searchFilter)
               | None => false
               end).
  unfold filteredCommunityStrains.
  rewrite (filter_Return _ q).
  2:{ intros r (n & Hn & _)%Hnames. unfold text_includes, q. by rewrite Hn. }
  simpl. eexists; split; [done |].
  assert (Hq : ∀ r, In r (List.filter q communityStrains) ↔
                    r ∈ communityStrains ∧
                    ∃ n, Strain.strainName r = Some n ∧ contains_ci n searchFilter).
  { intros r. rewrite filter_In, <- list_elem_of_In. unfold q.
    split.
    - intros [Hr Hm]. split; [done |].
      destruct (Strain.strainName r) as [n|]; [|done].
      exists n. split; [done |]. by apply includes_contains_ci.
    - intros [Hr (n & Hn & Hm)]. split; [done |]. rewrite Hn.
      by apply includes_contains_ci. }
  split; [rewrite length_take; lia |]. split; [|split].
  - transitivity (List.filter q communityStrains); [apply sublist_take |].
    clear. induction communityStrains as [|x l IH]; simpl; [done |].
    destruct (q x); [by apply sublist_skip | by apply sublist_cons].
  - intros r Hr. apply Hq, list_elem_of_In. eapply elem_of_sublist; [done |].
    apply sublist_take.
  - intros Hlen r n Hr Hn Hm. rewrite length_take in Hlen.
    rewrite take_ge by lia. apply list_elem_of_In, Hq. eauto.
Qed.

Lemma filteredCommunityStrains_first_four_witness :
  ∃ out,
    filteredCommunityStrains [Sample.blueDream; Sample.ogKush] "kush" = Return out ∧
    (length out ≤ 4)%nat ∧ sublist out [Sample.blueDream; Sample.ogKush] ∧
    (∀ r, r ∈ out → ∃ n, Strain.strainName r = Some n ∧ contains_ci n "kush") ∧
    ((length out < 4)%nat →
     ∀ r n, r ∈ [Sample.blueDream; Sample.ogKush] → Strain.strainName r = Some n →
            contains_ci n "kush" → r ∈ out).
Proof.
  apply filteredCommunityStrains_first_four; [reflexivity |].
  repeat constructor; eexists; (split; reflexivity).
Defined.

(** X21: a record without a rating is listed while the rating select has not
    been touched, and never again once it has been, whatever option is
    chosen - not even "Min Rating", whose value is the text "0" and no
    longer the number 0. *)
Theorem rating_select_hides_unrated (r : Strain.t) :
  Strain.rating r = None →
  matches Filters.initial "" r = Return true ∧
  ∀ n prev searchFilter,
    matches (Panel.handleFilterChange (Panel.rating n) prev) searchFilter r
    ≠ Return true.
Proof.
  intros Hr. split; [done |].
  intros n [r0 po fl ef br ty te lo] q.
  unfold matches, tags_include, text_includes. simpl. rewrite Hr. simpl.
  repeat match goal with
         | |- context [if ?c then _ else _] => destruct c
         | |- context [match ?o with Some _ => _ | None => _ end] => destruct o
         end; simpl; congruence.
Qed.

Lemma rating_select_hides_unrated_witness :
  matches Filters.initial "" (Strain.set_rating None Sample.blueDream) = Return true ∧
  ∀ n prev searchFilter,
    matches (Panel.handleFilterChange (Panel.rating n) prev) searchFilter
      (Strain.set_rating None Sample.blueDream)
    ≠ Return true.
Proof.
  apply (rating_select_hides_unrated (Strain.set_rating None Sample.blueDream)).
  reflexivity.
Defined.

(** X22: the average shown for ratings from 0 to 5 lies between "0.0" and
    "5.0", and when the mean of the ratings is itself a whole number of
    tenths it is shown exactly: the rounding of the quotient to a double
    does not show. *)
Theorem averageRating_exact (strains : list Strain.t) :
  strains ≠ [] →
  Forall rating_in_range strains →
  Z.of_nat (length strains) < 2 ^ 46 →
  ∃ n, averageRating strains = Str (one_decimal n) ∧ 0 ≤ n ≤ 50 ∧
       ∀ k, 10 * rating_sum strains = k * Z.of_nat (length strains) → n = k.
Proof.
  intros Hne Hr Hlen.
  destruct (averageRating_tenths strains Hne Hr Hlen) as (n & Hn & Hpos & Hnear).
  assert (0 < Z.of_nat (length strains)) as Hb by (destruct strains; simpl; [done | lia]).
  unfold nearest_tenth in Hnear. apply Z.abs_le in Hnear.
  set (a := rating_sum strains) in *. set (b := Z.of_nat (length strains)) in *.
  clearbody a b.
  exists n. split; [done |]. split; [done |].
  intros k Hk. nia.
Qed.

Lemma averageRating_exact_witness :
  ∃ n, averageRating [Sample.blueDream; Sample.ogKush; Sample.ogKush; Sample.ogKush]
       = Str (one_decimal n) ∧ 0 ≤ n ≤ 50 ∧
       ∀ k, 10 * rating_sum [Sample.blueDream; Sample.ogKush; Sample.ogKush; Sample.ogKush]
            = k * 4 → n = k.
Proof.
  apply (averageRating_exact [Sample.blueDream; Sample.ogKush; Sample.ogKush; Sample.ogKush]).
  - discriminate.
  - repeat (constructor; [intros z [= <-]; lia |]). constructor.
  - reflexivity.
Defined.

(** In that witness the mean is 10/4, and the text is "2.5". *)
Example averageRating_exact_scenario :
  averageRating [Sample.blueDream; Sample.ogKush; Sample.ogKush; Sample.ogKush]
  = Str "2.5" ∧ one_decimal 25 = "2.5".
Proof. split; reflexivity. Qed.

(** ** Sorting and filtering commute *)

Lemma sort_insert_filter_out {A} (cmp : A → A → option Z) (P : A → bool)
    (x : A) (l : list A) :
  P x = false → List.filter P (sort_insert cmp x l) = List.filter P l.
Proof.
  intros Hx. induction l as [|y l IH]; simpl; [by rewrite Hx |].
  destruct (0 <? sortCompare cmp x y); simpl; [by rewrite IH | by rewrite Hx].
Qed.

Lemma sort_insert_head {A} (cmp : A → A → option Z) (x : A) (l : list A) :
  (∀ y, y ∈ l → sortCompare cmp x y ≤ 0) → sort_insert cmp x l = x :: l.
Proof.
  intros H. destruct l as [|y l]; [done |]. simpl.
  destruct (0 <? sortCompare cmp x y) eqn:Hlt; [|done].
  apply Z.ltb_lt in Hlt. specialize (H y ltac:(left)). lia.
Qed.

Lemma rated_ge_trans : Transitive rated_ge.
Proof.
  intros a b c (ra & rb & Ha & Hb & Hab) (rb' & rc & Hb' & Hc & Hbc).
  exists ra, rc. repeat split; [done.. |]. assert (rb = rb') by congruence. lia.
Qed.

Lemma sort_insert_filter_in (P : Strain.t → bool) (x : Strain.t) (l : list Strain.t) :
  is_Some (Strain.rating x) → StronglySorted rated_ge l → P x = true →
  List.filter P (sort_insert by_rating_desc x l)
  = sort_insert by_rating_desc x (List.filter P l).
Proof.
  intros [rx Hrx] Hs Hx. induction Hs as [|y l Hs IH Hall]; [simpl; by rewrite Hx |].
  cbn [sort_insert].
  destruct (0 <? sortCompare by_rating_desc x y) eqn:Hlt.
  - simpl. rewrite IH. destruct (P y); [|done]. simpl. by rewrite Hlt.
  - apply Z.ltb_ge in Hlt.
    assert (∀ z, z ∈ y :: l → sortCompare by_rating_desc x z ≤ 0) as Hle.
    { intros z [->|Hz]%elem_of_cons; [done |].
      rewrite Forall_forall in Hall. destruct (Hall z Hz) as (ry & rz & Hy & Hz' & Hyz).
      rewrite (by_rating_desc_compare _ _ _ _ Hrx Hy) in Hlt.
      rewrite (by_rating_desc_compare _ _ _ _ Hrx Hz'). lia. }
    rewrite sort_insert_head.
    + simpl. by rewrite Hx.
    + intros z Hz. apply list_elem_of_In, filter_In in Hz as [Hz _].
      apply Hle. by apply list_elem_of_In.
Qed.

Lemma sort_StronglySorted (l : list Strain.t) :
  Forall (λ r, is_Some (Strain.rating r)) l →
  StronglySorted rated_ge (sort by_rating_desc l).
Proof.
  intros Hl. rewrite Forall_forall in Hl.
  apply Sorted_StronglySorted; [apply rated_ge_trans |]. apply sort_Sorted.
  - intros x y [rx Hx]%Hl [ry Hy]%Hl.
    rewrite (by_rating_desc_compare _ _ _ _ Hx Hy). intros H.
    exists rx, ry. repeat split; [done.. | lia].
  - intros x y [rx Hx]%Hl [ry Hy]%Hl.
    rewrite (by_rating_desc_compare _ _ _ _ Hx Hy). intros H.
    exists ry, rx. repeat split; [done.. | lia].
Qed.

Lemma sort_filter_commute (P : Strain.t → bool) (l : list Strain.t) :
  Forall (λ r, is_Some (Strain.rating r)) l →
  sort by_rating_desc (List.filter P l) = List.filter P (sort by_rating_desc l).
Proof.
  induction 1 as [|x l Hx Hl IH]; [done |]. simpl.
  fold (sort by_rating_desc l).
  destruct (P x) eqn:HP.
  - simpl. fold (sort by_rating_desc (List.filter P l)).
    rewrite IH, sort_insert_filter_in; auto using sort_StronglySorted.
  - by rewrite sort_insert_filter_out.
Qed.

Lemma filter_filter_andb {A} (P Q : A → bool) (l : list A) :
  List.filter P (List.filter Q l) = List.filter (λ x, P x && Q x) l.
Proof.
  induction l as [|x l IH]; [done |]. simpl.
  destruct (Q x); simpl; rewrite ?andb_false_r, ?andb_true_r; [|done].
  by destruct (P x); rewrite IH.
Qed.

Lemma filter_ext_in {A} (P Q : A → bool) (l : list A) :
  (∀ x, x ∈ l → P x = Q x) → List.filter P l = List.filter Q l.
Proof.
  induction l as [|x l IH]; intros H; [done |]. simpl.
  rewrite (H x) by left. rewrite IH; [done |]. intros y Hy. apply H. by right.
Qed.

(** On a well-formed entry the callback returns the rating test and a
    rest that does not depend on the rating filter. *)
Lemma matches_rating_split (po fl ef br ty te lo searchFilter : string) (r : Strain.t) :
  entry r →
  ∃ rest, ∀ rt,
    matches (Filters.mk rt po fl ef br ty te lo) searchFilter r
    = Return ((rating_is_0 rt || rating_ge (Strain.rating r) rt) && rest).
Proof.
  intros [[n Hn] [b Hb] [le Hle] [lt Hlt] _].
  unfold matches, tags_include, text_includes. simpl. rewrite Hn, Hb, Hle, Hlt.
  destruct (truthy ef), (truthy br), (truthy te), (truthy searchFilter); simpl;
    eexists; intros rt; rewrite <- !andb_assoc; reflexivity.
Qed.

(** X23: raising the minimum rating only takes records out of the history
    view: the view for the higher minimum is the view for the lower one
    without the records rated below the new minimum, the others in the
    same order. *)
Theorem filteredStrains_raise_minimum (data : list Strain.t)
    (po fl ef br ty te lo searchFilter : string) (n m : Z) :
  Forall entry data → n ≤ m →
  ∃ lower higher,
    filteredStrains data (Filters.mk (Filters.RStr n) po fl ef br ty te lo) searchFilter
    = Return lower ∧
    filteredStrains data (Filters.mk (Filters.RStr m) po fl ef br ty te lo) searchFilter
    = Return higher ∧
    higher = List.filter (λ r, m <=? rating_or_0 r) lower.
Proof.
  intros Hdata Hnm. rewrite Forall_forall in Hdata.
  pose (rest := λ r, match matches (Filters.mk (Filters.RNum 0) po fl ef br ty te lo)
                             searchFilter r with
                     | Return b => b
                     | Throw _ => false
                     end).
  assert (Hm : ∀ k r, r ∈ data →
                matches (Filters.mk (Filters.RStr k) po fl ef br ty te lo) searchFilter r
                = Return ((k <=? rating_or_0 r) && rest r)).
  { intros k r Hr. destruct (Hdata r Hr) as [_ _ _ _ (z & Hz & _)].
    destruct (matches_rating_split po fl ef br ty te lo searchFilter r (Hdata r Hr))
      as (b & Hb).
    unfold rest. rewrite !Hb. simpl. unfold rating_or_0. by rewrite Hz. }
  unfold filteredStrains.
  rewrite (filter_Return _ (λ r, (n <=? rating_or_0 r) && rest r)) by (intros; by apply Hm).
  rewrite (filter_Return _ (λ r, (m <=? rating_or_0 r) && rest r)) by (intros; by apply Hm).
  simpl. eexists _, _. split; [done |]. split; [done |].
  rewrite <- sort_filter_commute, filter_filter_andb.
  - f_equal. apply filter_ext_in. intros r _.
    destruct (m <=? rating_or_0 r) eqn:Hmr; [|done]. simpl.
    apply Z.leb_le in Hmr. rewrite (proj2 (Z.leb_le n _)) by lia. done.
  - apply Forall_forall. intros r Hr. apply list_elem_of_In, filter_In in Hr as [Hr _].
    apply list_elem_of_In in Hr. destruct (Hdata r Hr) as [_ _ _ _ (z & Hz & _)]. eauto.
Qed.

Lemma filteredStrains_raise_minimum_witness :
  ∃ lower higher,
    filteredStrains [Sample.ogKush; Sample.blueDream]
      (Filters.mk (Filters.RStr 1) "" "" "" "" "" "" "") "" = Return lower ∧
    filteredStrains [Sample.ogKush; Sample.blueDream]
      (Filters.mk (Filters.RStr 3) "" "" "" "" "" "" "") "" = Return higher ∧
    higher = List.filter (λ r, 3 <=? rating_or_0 r) lower.
Proof.
  apply filteredStrains_raise_minimum.
  - repeat constructor; try (eexists; reflexivity);
      eexists; (split; [reflexivity | lia]).
  - lia.
Defined.

(* ================================================================== *)
(** * Further properties of the form *)
(* ================================================================== *)

Lemma set_effects_same (prev : Strain.t) (l : list string) :
  Strain.effects prev = Some l → Strain.set_effects (Some l) prev = prev.
Proof. destruct prev. simpl. by intros ->. Qed.

Lemma filter_out_absent (effect : string) (l : list string) :
  ¬ In effect l → List.filter (λ e, negb (String.eqb e effect)) l = l.
Proof.
  induction l as [|x l IH]; intros H; [done |]. simpl.
  destruct (String.eqb_spec x effect) as [->|Hne]; simpl.
  - exfalso. apply H. by left.
  - rewrite IH; [done |]. intros Hin. apply H. by right.
Qed.

Lemma filter_out_app (effect : string) (l : list string) :
  List.filter (λ e, negb (String.eqb e effect)) (l ++ [effect])
  = List.filter (λ e, negb (String.eqb e effect)) l.
Proof.
  rewrite List.filter_app. simpl. rewrite String.eqb_refl. simpl. apply app_nil_r.
Qed.

Lemma filter_out_move (effect : string) (l : list string) :
  NoDup l → In effect l →
  List.filter (λ e, negb (String.eqb e effect)) l ++ [effect] ≡ₚ l.
Proof.
  induction l as [|x l IH]; intros Hnd Hin; [done |]. simpl.
  apply NoDup_cons in Hnd as [Hx Hnd].
  destruct (String.eqb_spec x effect) as [->|Hne]; simpl.
  - rewrite filter_out_absent by (by rewrite <- list_elem_of_In).
    by rewrite Permutation_app_comm.
  - destruct Hin as [->|Hin]; [done |]. by rewrite (IH Hnd Hin).
Qed.

Lemma handleEffectsToggle_cases (effect : string) (prev : Strain.t) :
  match Strain.effects prev with
  | None => Form.handleEffectsToggle effect prev = Throw TypeError
  | Some l =>
      ∃ l', Form.handleEffectsToggle effect prev
            = Return (Strain.set_effects (Some l') prev) ∧
            (In effect l' ↔ ¬ In effect l) ∧
            (∀ x, x ≠ effect → (In x l' ↔ In x l)) ∧
            (NoDup l → NoDup l')
  end.
Proof.
  unfold Form.handleEffectsToggle. destruct (Strain.effects prev) as [l|]; [|done].
  eexists; split; [done |].
  destruct (array_includes l effect) eqn:Hin.
  - apply array_includes_In in Hin. split; [|split].
    + split; [|done]. intros [_ H]%filter_In. by rewrite String.eqb_refl in H.
    + intros x Hx. split.
      * by intros [H _]%filter_In.
      * intros H. apply filter_In. split; [done |].
        by apply negb_true_iff, String.eqb_neq.
    + intros H. apply NoDup_ListNoDup, List.NoDup_filter. by apply NoDup_ListNoDup.
  - assert (¬ In effect l) as Hnot.
    { intros H. apply array_includes_In in H. congruence. }
    split; [|split].
    + split; [done |]. intros _. apply in_or_app. right. by left.
    + intros x Hx. split.
      * intros [H|[H|[]]]%in_app_or; [done | congruence].
      * intros H. apply in_or_app. by left.
    + intros H. apply NoDup_app. split; [|split].
      * done.
      * intros x Hx [->|[]%not_elem_of_nil]%elem_of_cons.
        apply Hnot. by apply list_elem_of_In.
      * apply NoDup_singleton.
Qed.

(** X24: [handleEffectsToggle] throws only when the form data have no effects
    list.  Otherwise it flips the effect - in the list afterwards exactly
    if it was not before -, keeps every other effect, and keeps a list
    without repetition free of repetition. *)
Theorem handleEffectsToggle_flips (effect : string) (prev : Strain.t) :
  match Strain.effects prev with
  | None => Form.handleEffectsToggle effect prev = Throw TypeError
  | Some l =>
      ∃ l', Form.handleEffectsToggle effect prev
            = Return (Strain.set_effects (Some l') prev) ∧
            (In effect l' ↔ ¬ In effect l) ∧
            (∀ x, x ≠ effect → (In x l' ↔ In x l)) ∧
            (NoDup l → NoDup l')
  end.
Proof. apply handleEffectsToggle_cases. Qed.

(** X25: toggling an effect twice gives back the same effects: the very same
    form data if the effect was not selected, and otherwise the same
    effects with that one moved to the end. *)
Theorem handleEffectsToggle_twice (effect : string) (prev : Strain.t) (l : list string) :
  Strain.effects prev = Some l → NoDup l →
  ∃ l'', Form.run [Form.ToggleEffect effect; Form.ToggleEffect effect] prev
         = Return (Strain.set_effects (Some l'') prev) ∧
         l'' ≡ₚ l ∧ (¬ In effect l → Strain.set_effects (Some l'') prev = prev).
Proof.
  intros Hl Hnd. simpl. unfold Form.handleEffectsToggle. rewrite Hl. simpl.
  destruct (array_includes l effect) eqn:Hin.
  - apply array_includes_In in Hin.
    set (rest := List.filter (λ e, negb (String.eqb e effect)) l).
    assert (array_includes rest effect = false) as Hout.
    { apply not_true_iff_false. intros [_ H]%array_includes_In%filter_In.
      by rewrite String.eqb_refl in H. }
    rewrite Hout. destruct prev; simpl in *. eexists; split; [done |]. split; [|done].
    by apply filter_out_move.
  - assert (¬ In effect l) as Hnot.
    { intros H. apply array_includes_In in H. congruence. }
    assert (array_includes (l ++ [effect]) effect = true) as Hnow.
    { apply array_includes_In, in_or_app. right. by left. }
    destruct prev; simpl in *. rewrite Hnow, filter_out_app, filter_out_absent by done.
    eexists; split; [done |]. split; [done |]. intros _. by rewrite Hl.
Qed.

Lemma handleEffectsToggle_twice_witness :
  ∃ l'', Form.run [Form.ToggleEffect "Sleepy"; Form.ToggleEffect "Sleepy"] Form.blank
         = Return (Strain.set_effects (Some l'') Form.blank) ∧
         l'' ≡ₚ [] ∧ (¬ In "Sleepy" [] → Strain.set_effects (Some l'') Form.blank = Form.blank).
Proof.
  apply (handleEffectsToggle_twice "Sleepy" Form.blank []).
  - reflexivity.
  - constructor.
Defined.

(** What every form handler keeps: a well-formed entry, no effect listed
    twice, and the [id] the form data came with. *)
Lemma step_keeps_form (ev : Form.event) (formData : Strain.t) :
  (∀ r, ev = Form.Rate r → 0 ≤ r) →
  entry formData →
  (∃ l, Strain.effects formData = Some l ∧ NoDup l) →
  ∃ formData',
    Form.step ev formData = Return formData' ∧ entry formData' ∧
    (∃ l, Strain.effects formData' = Some l ∧ NoDup l) ∧
    Strain.id formData' = Strain.id formData.
Proof.
  intros Hrate Hentry (l & Hl & Hnd).
  destruct ev as [name value|r|effect|sel]; simpl.
  - eexists; split; [done |]. destruct Hentry as [? ? ? ? ?].
    destruct name; simpl; repeat split; eauto.
  - eexists; split; [done |]. destruct Hentry as [? ? ? ? ?].
    repeat split; simpl; eauto.
  - pose proof (handleEffectsToggle_cases effect formData) as H. rewrite Hl in H.
    destruct H as (l' & -> & _ & _ & Hnd'). eexists; split; [done |].
    destruct Hentry as [? ? ? ? ?]. repeat split; simpl; eauto.
  - eexists; split; [done |]. unfold Form.handleTerpenesSelect.
    destruct Hentry as [? ? ? ? ?].
    destruct (length sel <=? 3)%nat; simpl; repeat split; simpl; eauto.
Qed.

Lemma run_keeps_form (evs : list Form.event) (formData : Strain.t) :
  rates_nonneg evs →
  entry formData →
  (∃ l, Strain.effects formData = Some l ∧ NoDup l) →
  ∃ formData',
    Form.run evs formData = Return formData' ∧ entry formData' ∧
    (∃ l, Strain.effects formData' = Some l ∧ NoDup l) ∧
    Strain.id formData' = Strain.id formData.
Proof.
  revert formData. induction evs as [|ev evs IH]; intros formData Hrates He Hnd.
  - exists formData. done.
  - destruct (step_keeps_form ev formData) as (f1 & Hstep & He1 & Hnd1 & Hid1);
      [intros r ->; apply Hrates; left | done.. |].
    destruct (IH f1) as (f2 & Hrun & He2 & Hnd2 & Hid2);
      [intros r Hr; apply Hrates; by right | done.. |].
    exists f2. simpl. rewrite Hstep. simpl. rewrite Hrun.
    do 3 (split; [done |]). by rewrite Hid2.
Qed.

(** X26: whatever is done to a blank form, no handler throws, and the form
    data stay a well-formed entry - name, brand and both tag lists
    present, rating not negative - with no effect listed twice and at
    most three terpenes. *)
Theorem blank_form_stays_entry (evs : list Form.event) :
  rates_nonneg evs →
  ∃ formData,
    Form.run evs Form.blank = Return formData ∧ entry formData ∧
    (∃ l, Strain.effects formData = Some l ∧ NoDup l) ∧
    terpenes_ok formData ∧ Strain.id formData = None.
Proof.
  intros Hrates.
  destruct (run_keeps_form evs Form.blank Hrates) as (f & Hrun & He & Hnd & Hid).
  - constructor; simpl; eauto. exists 0. done.
  - exists []. split; [done | constructor].
  - exists f. do 3 (split; [done |]). split; [|done].
    eapply run_terpenes_ok; [|done]. exists []. split; [done | simpl; lia].
Qed.

Lemma blank_form_stays_entry_witness :
  ∃ formData,
    Form.run [Form.Rate 4; Form.ToggleEffect "Sleepy"; Form.Change Form.brand "Cookies"]
      Form.blank = Return formData ∧ entry formData ∧
    (∃ l, Strain.effects formData = Some l ∧ NoDup l) ∧
    terpenes_ok formData ∧ Strain.id formData = None.
Proof.
  apply blank_form_stays_entry.
  intros r Hr. apply list_elem_of_In in Hr. simpl in Hr.
  destruct Hr as [[= <-]|[Hr|[Hr|[]]]]; [lia | discriminate | discriminate].
Defined.

(* ================================================================== *)
(** * From the form to the store and back to the screens *)
(* ================================================================== *)

Lemma entry_assign (old new : Strain.t) : entry new → entry (Strain.assign old new).
Proof.
  intros [[n Hn] [b Hb] [le Hle] [lt Hlt] (z & Hz & Hpos)].
  constructor; unfold Strain.assign; simpl; rewrite ?Hn, ?Hb, ?Hle, ?Hlt, ?Hz; eauto.
Qed.

Lemma entry_stamped (data : Strain.t) (u c m : option string) :
  entry data →
  entry (Strain.set_updatedAt m (Strain.set_createdAt c (Strain.set_userId u data))).
Proof. intros []. by constructor. Qed.

Lemma entry_mirror (data : Strain.t) (o u c : option string) :
  entry data →
  entry (Strain.set_contributedAt c (Strain.set_userId u (Strain.set_originalDocId o data))).
Proof. intros []. by constructor. Qed.

Lemma private_docs_lookup (u d : string) (r : Strain.t) (b : backend) :
  (d, r) ∈ private_docs u b → strains b !! (u, d) = Some r.
Proof.
  unfold private_docs. rewrite list_elem_of_omap.
  intros ([[u' d'] r'] & Hin & Heq). apply elem_of_map_to_list in Hin.
  destruct (decide (u' = u)) as [->|]; [|done]. by injection Heq as -> ->.
Qed.

Lemma gateway_entries (E : env) (s : sys) (strainData : Strain.t)
    (docId : option string) (deleted : string) :
  entries_only (store s) → entry strainData →
  entries_only (store (snd (logStrain E strainData docId s))) ∧
  entries_only (store (snd (deleteStrain E deleted s))).
Proof.
  intros [Hp Hc] Hdata. split; run_M;
    destruct (App.db (ui s)), (App.userId (ui s)) as [u|]; try done;
    destruct (truthy u); try done; simpl.
  - destruct docId as [i|]; [destruct (truthy i) eqn:Hi|]; simpl; rewrite ?Hi; simpl;
      destruct (accepts E (length (requests s))); simpl; try done;
      try destruct (accepts E (S (length (requests s)))); simpl;
      (split; simpl; intros ? ? Hlk;
       repeat (apply lookup_insert_Some in Hlk as [[_ <-]|[_ Hlk]]);
       eauto using entry_assign, entry_stamped, entry_mirror).
  - destruct (truthy deleted); [|done].
    destruct (accepts E (length (requests s))); simpl; [|done].
    split; simpl; [|done]. intros ? ? [_ Hlk]%lookup_delete_Some. eauto.
Qed.

(** X27: if both collections hold well-formed entries only, they still do
    after [logStrain] has been given a well-formed entry - whatever the
    document id and the answers of the store - and after [deleteStrain]. *)
Theorem gateway_keeps_entries (E : env) (s : sys) (strainData : Strain.t)
    (docId : option string) (deleted : string) :
  entries_only (store s) → entry strainData →
  entries_only (store (snd (logStrain E strainData docId s))) ∧
  entries_only (store (snd (deleteStrain E deleted s))).
Proof. apply gateway_entries. Qed.

Lemma gateway_keeps_entries_witness :
  entries_only (store (snd (logStrain Sample.E Sample.blueDream None Sample.alice))) ∧
  entries_only (store (snd (deleteStrain Sample.E "doc0" Sample.alice))).
Proof.
  apply (gateway_keeps_entries Sample.E Sample.alice Sample.blueDream None "doc0").
  - split; intros ? ? H; discriminate.
  - constructor; try (eexists; reflexivity). exists 4. split; [reflexivity | lia].
Defined.

(** X28: on a store that holds well-formed entries only - which is what the
    form writes - no screen throws: whatever the filters and the search,
    the history view returns for the private and for the community list
    that a snapshot delivers, the community cards of the dashboard can be
    computed, and every listed entry can be copied. *)
Theorem screens_return_on_entries (b : backend) (userId : string)
    (filters : Filters.t) (searchFilter : string) :
  entries_only b →
  (∃ out, filteredStrains (of_doc <$> private_docs userId b) filters searchFilter
          = Return out) ∧
  (∃ out, filteredStrains (of_doc <$> community_docs b) filters searchFilter
          = Return out) ∧
  (∃ out, filteredCommunityStrains (of_doc <$> community_docs b) searchFilter
          = Return out) ∧
  ∀ strain, strain ∈ (of_doc <$> private_docs userId b) ++ (of_doc <$> community_docs b) →
            ∃ text, details strain = Return text.
Proof.
  intros [Hp Hc].
  assert (H1 : ∀ x, x ∈ of_doc <$> private_docs userId b → entry x).
  { intros x ([d r] & -> & Hin)%list_elem_of_fmap. apply entry_assign.
    eapply Hp. by apply private_docs_lookup. }
  assert (H2 : ∀ x, x ∈ of_doc <$> community_docs b → entry x).
  { intros x ([d r] & -> & Hin)%list_elem_of_fmap. apply entry_assign.
    eapply Hc. by apply elem_of_map_to_list. }
  assert (Hview : ∀ l, (∀ x, x ∈ l → entry x) →
                       ∃ out, filteredStrains l filters searchFilter = Return out).
  { intros l Hl. unfold filteredStrains.
    rewrite (filter_Return _ (λ r, match matches filters searchFilter r with
                                   | Return b => b
                                   | Throw _ => false
                                   end)).
    - simpl. by eexists.
    - intros x Hx. destruct (matches_passes filters searchFilter x (Hl x Hx)) as (c & -> & _).
      done. }
  split; [by apply Hview |]. split; [by apply Hview |]. split.
  - unfold filteredCommunityStrains.
    rewrite (filter_Return _ (λ r, match Strain.strainName r with
                                   | Some n => includes (toLowerCase n) (toLowerCase searchFilter)
                                   | None => false
                                   end)).
    + simpl. by eexists.
    + intros x [[n Hn] _ _ _ _]%H2. unfold text_includes. by rewrite Hn.
  - intros strain [Hs|Hs]%elem_of_app; [apply H1 in Hs | apply H2 in Hs];
      destruct Hs as [_ _ [le Hle] [lt Hlt] _]; unfold details, joined;
      rewrite Hle, Hlt; simpl; by eexists.
Qed.

Lemma screens_return_on_entries_witness :
  (∃ out, filteredStrains (of_doc <$> private_docs "alice" (store Sample.created))
            (Filters.mk (Filters.RStr 3) "" "" "Sleepy" "Cookies" "" "Myrcene" "") "dream"
          = Return out) ∧
  (∃ out, filteredStrains (of_doc <$> community_docs (store Sample.created))
            (Filters.mk (Filters.RStr 3) "" "" "Sleepy" "Cookies" "" "Myrcene" "") "dream"
          = Return out) ∧
  (∃ out, filteredCommunityStrains (of_doc <$> community_docs (store Sample.created)) "dream"
          = Return out) ∧
  ∀ strain, strain ∈ (of_doc <$> private_docs "alice" (store Sample.created))
                     ++ (of_doc <$> community_docs (store Sample.created)) →
            ∃ text, details strain = Return text.
Proof.
  apply (screens_return_on_entries (store Sample.created) "alice").
  apply (gateway_entries Sample.E Sample.alice Sample.blueDream None "doc0").
  - split; intros ? ? H; discriminate.
  - constructor; try (eexists; reflexivity). exists 4. split; [reflexivity | lia].
Defined.

(** A snapshot puts the document id on each object, unless the stored
    data have an [id] field of their own, which then wins; everything
    else is the stored data. *)
Lemma of_doc_id (d : string) (data : Strain.t) :
  Strain.id (of_doc (d, data)) = Some (default d (Strain.id data)) ∧
  Strain.entered (of_doc (d, data)) = Strain.entered data ∧
  Strain.userId (of_doc (d, data)) = Strain.userId data.
Proof.
  destruct data as [i f2 f3 f4 f5 f6 f7 f8 f9 f10 f11 f12 f13 f14 f15].
  unfold of_doc, Strain.assign, Strain.entered. simpl.
  split; [by destruct i |]. split; [|by destruct f11].
  repeat f_equal; match goal with |- _ = ?x => by destruct x end.
Qed.

(** X29: editing an entry taken from a snapshot and saving it writes to the
    very document the snapshot object names - its own [id] field if the
    stored data had one, the document id otherwise, a single path segment
    as the identity is - by one merging write, which also stores that id
    as a field; nothing is added to the community collection. *)
Theorem edit_targets_document (E : env) (s : sys) (d : string) (data formData : Strain.t)
    (evs : list Form.event) (u : string) :
  is_Some (App.db (ui s)) → App.userId (ui s) = Some u →
  is_segment u = true →
  is_segment (default d (Strain.id data)) = true →
  entry data → (∃ l, Strain.effects data = Some l ∧ NoDup l) → rates_nonneg evs →
  Form.run evs (Form.initial (Some (of_doc (d, data)))) = Return formData →
  let s' := snd (Form.handleSubmit E (Some (of_doc (d, data))) formData s) in
  (∃ written,
     requests s' = SetDoc (UserStrain u (default d (Strain.id data))) written true
                   :: requests s ∧
     Strain.id written = Some (default d (Strain.id data)) ∧
     Strain.entered written = Strain.entered formData) ∧
  community_strains (store s') = community_strains (store s).
Proof.
  intros [db Hdb] Hu Hne%is_segment_truthy Htarget%is_segment_truthy
    Hentry Hnd Hrates Hrun s'. subst s'.
  destruct (of_doc_id d data) as (Hid & Hent & _).
  assert (Strain.id formData = Some (default d (Strain.id data))) as Hfid.
  { destruct (run_keeps_form evs (Form.initial (Some (of_doc (d, data)))) Hrates)
      as (f & Hrun' & _ & _ & Hidf).
    - by apply entry_assign.
    - simpl. destruct Hnd as (l & Hl & Hnd).
      exists l. split; [|done]. unfold of_doc, Strain.assign. simpl. by rewrite Hl.
    - rewrite Hrun in Hrun'. injection Hrun' as <-. by rewrite Hidf. }
  unfold Form.handleSubmit.
  change (Some (of_doc (d, data)) ≫= Strain.id) with (Strain.id (of_doc (d, data))).
  rewrite Hid. run_M.
  rewrite Hdb, Hu, Hne. simpl. rewrite Htarget. simpl.
  destruct (accepts E (length (requests s))); simpl; (split; [by eexists | done]).
Qed.

Lemma edit_targets_document_witness :
  let s' := snd (Form.handleSubmit Sample.E (Some (of_doc ("doc0", Scenario.stored)))
                   (Strain.set_rating (Some 5) (of_doc ("doc0", Scenario.stored)))
                   Sample.created) in
  (∃ written,
     requests s' = SetDoc (UserStrain "alice" "doc0") written true
                   :: requests Sample.created ∧
     Strain.id written = Some "doc0" ∧
     Strain.entered written
     = Strain.entered (Strain.set_rating (Some 5) (of_doc ("doc0", Scenario.stored)))) ∧
  community_strains (store s') = community_strains (store Sample.created).
Proof.
  apply (edit_targets_document Sample.E Sample.created "doc0" Scenario.stored
           (Strain.set_rating (Some 5) (of_doc ("doc0", Scenario.stored)))
           [Form.Rate 5] "alice").
  - eexists; reflexivity.
  - reflexivity.
  - reflexivity.
  - reflexivity.
  - constructor; try (eexists; reflexivity). exists 4. split; [reflexivity | lia].
  - exists []. split; [reflexivity | constructor].
  - intros r Hr. apply list_elem_of_In in Hr. simpl in Hr.
    destruct Hr as [[= <-]|[]]. lia.
  - reflexivity.
Defined.

(** X30: [copyStrainDetails] throws exactly when the entry has no effects list
    or no terpenes list; otherwise it hands its text to the clipboard, and
    raises its alert exactly when the clipboard takes the text.  It never
    sends a request and never changes the store. *)
Theorem copyStrainDetails_outcome (clipboard : bool) (strain : Strain.t) (s : sys) :
  ((copyStrainDetails clipboard strain s).1 = Throw TypeError
   ↔ Strain.effects strain = None ∨ Strain.terpenes strain = None) ∧
  (∀ text alert, (copyStrainDetails clipboard strain s).1 = Return (text, alert) →
                 details strain = Return text ∧ (is_Some alert ↔ clipboard = true)) ∧
  store (copyStrainDetails clipboard strain s).2 = store s ∧
  requests (copyStrainDetails clipboard strain s).2 = requests s.
Proof.
  assert (Hd : (∃ text, details strain = Return text ∧
                        Strain.effects strain ≠ None ∧ Strain.terpenes strain ≠ None) ∨
               (details strain = Throw TypeError ∧
                (Strain.effects strain = None ∨ Strain.terpenes strain = None))).
  { unfold details, joined.
    destruct (Strain.effects strain), (Strain.terpenes strain); simpl; eauto 6. }
  unfold copyStrainDetails. run_M.
  destruct Hd as [(text & -> & He & Ht)|[-> Hmiss]].
  - destruct clipboard; simpl.
    + split; [split; [done | by intros [?|?]] |]. split; [|done].
      intros ? ? [= <- <-]. split; [done |]. split; eauto.
    + split; [split; [done | by intros [?|?]] |]. split; [|done].
      intros ? ? [= <- <-]. split; [done |]. split; [by intros [? ?] | done].
  - simpl. split; [done |]. split; [|done]. intros ? ? [=].
Qed.
